(** * cizzle-car-world: input resolution, vehicle kinematics, chase camera
      and obstacle field of [cizzle-car-world-html/main.js]

    JavaScript numbers are idealised as real numbers ([R]): every
    arithmetic operation of the source is exact here, and the values NaN and
    the infinities do not exist.  A second model ([Module Binary64]) has
    the input logic and [updateCar] on IEEE-754 binary64 values, where
    they can be evaluated and where overflow and NaN exist; the boundary
    checks are settled there. *)

From Stdlib Require Import String Ascii.
From Stdlib Require Import Reals Lra List Bool Arith Lia.
From Stdlib Require Import Floats.
Import ListNotations.

Open Scope R_scope.

(** ** The parts of three.js that [main.js] calls

    three.js is an external dependency of the program; the definitions in
    this module follow the library's own source, method by method, with
    exact arithmetic on the reals.  What rounding, overflow and NaN change
    is in [Module Binary64], which has [clamp], [applyQuaternion],
    [multiply] and the translation on binary64. *)

Module THREE.

Record Vector3 := mkVector3 { x : R; y : R; z : R }.

Record Quaternion := mkQuaternion { qx : R; qy : R; qz : R; qw : R }.

Module MathUtils.

(** [clamp(value, min, max) = Math.max(min, Math.min(max, value))] *)
Definition clamp (value min max : R) : R := Rmax min (Rmin max value).

(** [randFloat(low, high) = low + Math.random() * (high - low)];
    the sample returned by [Math.random()] is the last argument. *)
Definition randFloat (low high : R) (random : R) : R :=
  low + random * (high - low).

(** [randFloatSpread(range) = range * (0.5 - Math.random())] *)
Definition randFloatSpread (range : R) (random : R) : R :=
  range * (0.5 - random).

End MathUtils.

(** [Vector3.add], [Vector3.multiplyScalar], [Vector3.lerp] *)
Definition add (u v : Vector3) : Vector3 :=
  mkVector3 (x u + x v) (y u + y v) (z u + z v).

Definition multiplyScalar (v : Vector3) (k : R) : Vector3 :=
  mkVector3 (x v * k) (y v * k) (z v * k).

(** [this.x += (v.x - this.x) * alpha], and the same for y and z. *)
Definition lerp (this v : Vector3) (alpha : R) : Vector3 :=
  mkVector3 (x this + (x v - x this) * alpha)
            (y this + (y v - y this) * alpha)
            (z this + (z v - z this) * alpha).

(** [Vector3.applyQuaternion]: with t = 2 * cross(q.xyz, v), the result is
    v + q.w * t + cross(q.xyz, t). *)
Definition applyQuaternion (v : Vector3) (q : Quaternion) : Vector3 :=
  let tx := 2 * (qy q * z v - qz q * y v) in
  let ty := 2 * (qz q * x v - qx q * z v) in
  let tz := 2 * (qx q * y v - qy q * x v) in
  mkVector3 (x v + qw q * tx + qy q * tz - qz q * ty)
            (y v + qw q * ty + qz q * tx - qx q * tz)
            (z v + qw q * tz + qx q * ty - qy q * tx).

(** [Quaternion.setFromAxisAngle(axis, angle)] *)
Definition setFromAxisAngle (axis : Vector3) (angle : R) : Quaternion :=
  let halfAngle := angle / 2 in
  let s := sin halfAngle in
  mkQuaternion (x axis * s) (y axis * s) (z axis * s) (cos halfAngle).

(** [Quaternion.multiply(q)] is [multiplyQuaternions(this, q)]. *)
Definition multiply (a b : Quaternion) : Quaternion :=
  mkQuaternion
    (qx a * qw b + qw a * qx b + qy a * qz b - qz a * qy b)
    (qy a * qw b + qw a * qy b + qz a * qx b - qx a * qz b)
    (qz a * qw b + qw a * qz b + qx a * qy b - qy a * qx b)
    (qw a * qw b - qx a * qx b - qy a * qy b - qz a * qz b).

(** An [Object3D], as far as the program uses one: local position,
    orientation and scale.  Every object of the program is a direct child
    of the scene, which is never transformed, so local and world
    coordinates coincide. *)
Record Object3D := mkObject3D {
  position : Vector3;
  quaternion : Quaternion;
  scale : Vector3
}.

Definition _yAxis : Vector3 := mkVector3 0 1 0.
Definition _zAxis : Vector3 := mkVector3 0 0 1.

(** [rotateOnAxis(axis, angle)]: [this.quaternion.multiply(_q1)] with
    [_q1] set from the axis and the angle. *)
Definition rotateOnAxis (o : Object3D) (axis : Vector3) (angle : R) : Object3D :=
  mkObject3D (position o)
             (multiply (quaternion o) (setFromAxisAngle axis angle))
             (scale o).

Definition rotateY (o : Object3D) (angle : R) : Object3D :=
  rotateOnAxis o _yAxis angle.

(** [translateOnAxis(axis, distance)]: the axis is rotated by the object's
    quaternion, scaled by the distance and added to the position. *)
Definition translateOnAxis (o : Object3D) (axis : Vector3) (distance : R) : Object3D :=
  mkObject3D
    (add (position o) (multiplyScalar (applyQuaternion axis (quaternion o)) distance))
    (quaternion o)
    (scale o).

Definition translateZ (o : Object3D) (distance : R) : Object3D :=
  translateOnAxis o _zAxis distance.

(** [getWorldPosition]: the translation part of the world matrix, which
    for a child of the untransformed scene is the local position. *)
Definition getWorldPosition (o : Object3D) : Vector3 := position o.

End THREE.

Import THREE.

(** ** Basic setup and car controls *)

Definition worldSize : R := 100.
Definition boundary : R := worldSize / 2 - 2.

Module Keys.
Record t := mk { w : bool; a : bool; s : bool; d : bool }.
End Keys.

Definition carSpeed : R := 10.
Definition turnSpeed : R := PI.

(** ** Gamepad state *)

Record GamepadState := mkGamepadState {
  axes : list R;
  buttons : list bool
}.

Definition deadZone : R := 0.15.

(** What the browser reports of a gamepad: its index, its axis readings
    and how many buttons it has. *)
Record Gamepad := mkGamepad {
  index : nat;
  gp_axes : list R;
  gp_buttons_length : nat
}.

(** The module-level input variables: [keys], [gamepadIndex] ([None] is
    [null]) and [gamepadState]. *)
Record Input := mkInput {
  keys : Keys.t;
  gamepadIndex : option nat;
  gamepadState : GamepadState
}.

Definition initialInput : Input :=
  mkInput (Keys.mk false false false false) None
          (mkGamepadState [0; 0; 0; 0] []).

(** ** Creating the random obstacles

    [Math.random()] is modelled by a stream: the n-th call of the run
    returns [random n], and the functions below thread the number of calls
    made so far.  The rejection loop [while (!placed)] has no bound in the
    source; here it takes a number of attempts [fuel] and answers [None]
    when they are used up. *)

Section Obstacles.

Variable random : nat -> R.

(** The test that accepts a draw: [Math.abs(x) > 5 || Math.abs(z) > 5]. *)
Definition outsideStart (px pz : R) : Prop := Rabs px > 5 \/ Rabs pz > 5.

Definition outsideStart_dec (px pz : R) : {outsideStart px pz} + {~ outsideStart px pz}.
Proof.
  unfold outsideStart.
  destruct (Rgt_dec (Rabs px) 5); [left; left; assumption|].
  destruct (Rgt_dec (Rabs pz) 5); [left; right; assumption|].
  right; intros [H|H]; contradiction.
Defined.

(** One run of the [while (!placed)] loop, started after [calls] calls
    of [Math.random()]: the accepted x and z and the new number of calls. *)
Fixpoint placeObstacle (fuel calls : nat) : option (R * R * nat) :=
  match fuel with
  | O => None
  | S fuel' =>
      let px := MathUtils.randFloatSpread (worldSize * 0.9) (random calls) in
      let pz := MathUtils.randFloatSpread (worldSize * 0.9) (random (S calls)) in
      if outsideStart_dec px pz
      then Some (px, pz, S (S calls))
      else placeObstacle fuel' (S (S calls))
  end.

(** The mesh of one obstacle once the loop body is through:
    [position.set(x, 0.5, z)], [scale.set(scale, scale, scale)], then
    [position.y = scale / 2]. *)
Definition obstacleMesh (px pz sc : R) : Object3D :=
  let placed := mkObject3D (mkVector3 px 0.5 pz) (mkQuaternion 0 0 0 1) (mkVector3 1 1 1) in
  let scaled := mkObject3D (position placed) (quaternion placed) (mkVector3 sc sc sc) in
  mkObject3D (mkVector3 (x (position scaled)) (sc / 2) (z (position scaled)))
             (quaternion scaled) (THREE.scale scaled).

(** [for (let i = 0; i < count; i++)], by the number of iterations left;
    [obstacles.push(obstacle)] appends at the end of the array. *)
Fixpoint createObstaclesLoop (fuel count calls : nat) (obstacles : list Object3D)
  : option (list Object3D * nat) :=
  match count with
  | O => Some (obstacles, calls)
  | S count' =>
      match placeObstacle fuel calls with
      | None => None
      | Some (px, pz, calls') =>
          let sc := MathUtils.randFloat 1 4 (random calls') in
          createObstaclesLoop fuel count' (S calls') (obstacles ++ [obstacleMesh px pz sc])
      end
  end.

(** [createObstacles(count)] on the empty [obstacles] array of the module. *)
Definition createObstacles (fuel count : nat) : option (list Object3D) :=
  option_map fst (createObstaclesLoop fuel count 0%nat []).

(** [Math.random()] returns values in [0, 1). *)
Definition validRandom : Prop := forall n, 0 <= random n < 1.

(** The attempt that starts at call [calls] is accepted. *)
Definition accepted (calls : nat) : Prop :=
  outsideStart (MathUtils.randFloatSpread (worldSize * 0.9) (random calls))
               (MathUtils.randFloatSpread (worldSize * 0.9) (random (S calls))).

(** Every rejection loop ends: from any call on, some attempt is accepted. *)
Definition loopsEnd : Prop :=
  forall calls, exists attempts, accepted (calls + 2 * attempts).

(** Where an obstacle may stand and how large it may be. *)
Definition wellPlaced (o : Object3D) : Prop :=
  (Rabs (x (position o)) > 5 \/ Rabs (z (position o)) > 5) /\
  ~ (Rabs (x (position o)) <= 5 /\ Rabs (z (position o)) <= 5) /\
  Rabs (x (position o)) <= worldSize * 0.9 / 2 /\
  Rabs (z (position o)) <= worldSize * 0.9 / 2 /\
  exists sc, 1 <= sc <= 4 /\
             THREE.scale o = mkVector3 sc sc sc /\
             y (position o) = sc / 2.

(** The obstacle is made of the draws [k] and [k + 1], its x and z, and
    [k + 2], its scale on all three axes and twice its y. *)
Definition drawnAt (k : nat) (o : Object3D) : Prop :=
  x (position o) = worldSize * 0.9 * (0.5 - random k) /\
  z (position o) = worldSize * 0.9 * (0.5 - random (S k)) /\
  x (THREE.scale o) = 1 + random (S (S k)) * (4 - 1) /\
  y (THREE.scale o) = 1 + random (S (S k)) * (4 - 1) /\
  z (THREE.scale o) = 1 + random (S (S k)) * (4 - 1) /\
  y (position o) = (1 + random (S (S k)) * (4 - 1)) / 2.

(** [k] is where the rejection loop entered after [from] calls of
    [Math.random()] stops: the first accepted attempt, every attempt
    before it rejected. *)
Definition firstAccepted (from k : nat) : Prop :=
  accepted k /\
  exists rejected,
    k = (from + 2 * rejected)%nat /\
    forall j, (j < rejected)%nat -> ~ accepted (from + 2 * j).

(** The obstacles take their draws in turn: each loop is entered right
    after the three draws of the obstacle before. *)
Fixpoint drawsInTurn (from : nat) (starts : list nat) : Prop :=
  match starts with
  | [] => True
  | k :: rest => firstAccepted from k /\ drawsInTurn (k + 3) rest
  end.

End Obstacles.

(** ** Event handlers *)

Definition toLowerChar (c : ascii) : ascii :=
  let n := nat_of_ascii c in
  if ((65 <=? n) && (n <=? 90))%nat then ascii_of_nat (n + 32) else c.

(** [String.prototype.toLowerCase], on the ASCII letters. *)
Fixpoint toLowerCase (str : string) : string :=
  match str with
  | EmptyString => EmptyString
  | String c rest => String (toLowerChar c) (toLowerCase rest)
  end.

(** The [switch (event.key.toLowerCase())] of both key handlers sets the
    flag of the key to [pressed]. *)
Definition setKey (pressed : bool) (key : string) (k : Keys.t) : Keys.t :=
  let lower := toLowerCase key in
  if ((lower =? "w") || (lower =? "arrowup"))%string
  then Keys.mk pressed (Keys.a k) (Keys.s k) (Keys.d k)
  else if ((lower =? "a") || (lower =? "arrowleft"))%string
  then Keys.mk (Keys.w k) pressed (Keys.s k) (Keys.d k)
  else if ((lower =? "s") || (lower =? "arrowdown"))%string
  then Keys.mk (Keys.w k) (Keys.a k) pressed (Keys.d k)
  else if ((lower =? "d") || (lower =? "arrowright"))%string
  then Keys.mk (Keys.w k) (Keys.a k) (Keys.s k) pressed
  else k.

Definition handleKeyDown (key : string) (i : Input) : Input :=
  mkInput (setKey true key (keys i)) (gamepadIndex i) (gamepadState i).

Definition handleKeyUp (key : string) (i : Input) : Input :=
  mkInput (setKey false key (keys i)) (gamepadIndex i) (gamepadState i).

(** Use the first connected gamepad. *)
Definition handleGamepadConnected (gamepad : Gamepad) (i : Input) : Input :=
  match gamepadIndex i with
  | None =>
      mkInput (keys i) (Some (index gamepad))
              (mkGamepadState (axes (gamepadState i))
                              (repeat false (gp_buttons_length gamepad)))
  | Some _ => i
  end.

Definition handleGamepadDisconnected (gamepad : Gamepad) (i : Input) : Input :=
  match gamepadIndex i with
  | Some active =>
      if (index gamepad =? active)%nat
      then mkInput (keys i) None
                   (mkGamepadState [0; 0; 0; 0]
                      (map (fun _ => false) (buttons (gamepadState i))))
      else i
  | None => i
  end.

(** ** Polling the gamepad *)

(** The dead zone of the polling loop: [if (Math.abs(value) < deadZone) value = 0]. *)
Definition snapAxis (value : R) : R :=
  if Rlt_dec (Rabs value) deadZone then 0 else value.

(** The loop over [i < Math.min(gp.axes.length, gamepadState.axes.length)]:
    the leading entries of the tracked axes are overwritten, the others stay. *)
Fixpoint readAxes (gpAxes tracked : list R) : list R :=
  match gpAxes, tracked with
  | value :: gpAxes', _ :: tracked' => snapAxis value :: readAxes gpAxes' tracked'
  | _, _ => tracked
  end.

(** [updateGamepadInput()]; [gamepads] is what [navigator.getGamepads()]
    returns, an array whose entries are gamepads or [null]. *)
Definition updateGamepadInput (gamepads : list (option Gamepad)) (i : Input) : Input :=
  match gamepadIndex i with
  | None => i
  | Some active =>
      match nth_error gamepads active with
      | Some (Some gp) =>
          mkInput (keys i) (gamepadIndex i)
                  (mkGamepadState (readAxes (gp_axes gp) (axes (gamepadState i)))
                                  (buttons (gamepadState i)))
      | _ => mkInput (keys i) None (gamepadState i)
      end
  end.

(** ** Updating the car *)

(** [gamepadState.axes[i]]; an index past the end reads [undefined], whose
    magnitude is NaN and compares false with everything: [None] here. *)
Definition axis (g : GamepadState) (i : nat) : option R := nth_error (axes g) i.

(** The keyboard part of "Determine Input". *)
Definition keyboardInput (k : Keys.t) : R * R :=
  let forwardInput := 0 in
  let turnInput := 0 in
  let forwardInput := if Keys.w k then forwardInput - 1 else forwardInput in
  let forwardInput := if Keys.s k then forwardInput + 0.6 else forwardInput in
  let turnInput := if Keys.a k then turnInput + 1 else turnInput in
  let turnInput := if Keys.d k then turnInput - 1 else turnInput in
  (forwardInput, turnInput).

(** The gamepad part of "Determine Input", on the keyboard values. *)
Definition gamepadOverride (g : GamepadState) (kb : R * R) : R * R :=
  let '(forwardInput, turnInput) := kb in
  let gpTurn := axis g 0 in
  let gpForward := option_map Ropp (axis g 1) in
  let forwardInput :=
    match gpForward with
    | Some gpForward =>
        if Rgt_dec (Rabs gpForward) deadZone
        then (if Rgt_dec gpForward 0 then - gpForward else gpForward * 0.6)
        else forwardInput
    | None => forwardInput
    end in
  let turnInput :=
    match gpTurn with
    | Some gpTurn =>
        if Rgt_dec (Rabs gpTurn) deadZone then - gpTurn else turnInput
    | None => turnInput
    end in
  (forwardInput, turnInput).

(** "Determine Input": the pair [(forwardInput, turnInput)] of the frame. *)
Definition determineInput (i : Input) : R * R :=
  gamepadOverride (gamepadState i) (keyboardInput (keys i)).

(** "Apply Input": [rotateY] when [turnInput !== 0], then [translateZ] when
    [forwardInput !== 0]. *)
Definition applyInput (deltaTime : R) (input : R * R) (car : Object3D) : Object3D :=
  let currentTurnSpeed := turnSpeed * deltaTime in
  let currentMoveSpeed := carSpeed * deltaTime in
  let '(forwardInput, turnInput) := input in
  let car :=
    if Req_dec_T turnInput 0 then car
    else rotateY car (currentTurnSpeed * turnInput) in
  if Req_dec_T forwardInput 0 then car
  else translateZ car (currentMoveSpeed * forwardInput).

(** "Boundary Checks", and the car kept on the ground. *)
Definition boundaryChecks (car : Object3D) : Object3D :=
  let px := MathUtils.clamp (x (position car)) (- boundary) boundary in
  let pz := MathUtils.clamp (z (position car)) (- boundary) boundary in
  mkObject3D (mkVector3 px 0.5 pz) (quaternion car) (scale car).

Definition updateCar (deltaTime : R) (i : Input) (car : Object3D) : Object3D :=
  boundaryChecks (applyInput deltaTime (determineInput i) car).

(** ** Updating the camera

    The camera's orientation is kept as the point it looks at:
    [camera.lookAt(p)] changes the orientation only. *)

Record Camera := mkCamera {
  cam_position : Vector3;
  cam_lookAt : Vector3
}.

(** [targetPosition.clone().add(new Vector3(0, 5, 12).applyQuaternion(car.quaternion))] *)
Definition desiredCameraPosition (car : Object3D) : Vector3 :=
  let targetPosition := getWorldPosition car in
  add targetPosition (applyQuaternion (mkVector3 0 5 12) (quaternion car)).

(** [updateCamera()]; the value [cameraOffset] computed first in the source
    is not used afterwards. *)
Definition updateCamera (car : Object3D) (camera : Camera) : Camera :=
  mkCamera (lerp (cam_position camera) (desiredCameraPosition car) 0.05)
           (position car).

(** ** The animation loop *)

Record World := mkWorld {
  input : Input;
  car : Object3D;
  camera : Camera
}.

(** One call of [animate()]: [deltaTime] is [clock.getDelta()] and
    [gamepads] what the browser reports in this frame. *)
Definition animate (deltaTime : R) (gamepads : list (option Gamepad)) (wd : World) : World :=
  let input' := updateGamepadInput gamepads (input wd) in
  let car' := updateCar deltaTime input' (car wd) in
  let camera' := updateCamera car' (camera wd) in
  mkWorld input' car' camera'.

(** What can happen between two frames, and a frame. *)
Inductive Event :=
| KeyDown (key : string)
| KeyUp (key : string)
| GamepadConnected (gamepad : Gamepad)
| GamepadDisconnected (gamepad : Gamepad)
| Frame (deltaTime : R) (gamepads : list (option Gamepad)).

Definition step (wd : World) (e : Event) : World :=
  match e with
  | KeyDown key => mkWorld (handleKeyDown key (input wd)) (car wd) (camera wd)
  | KeyUp key => mkWorld (handleKeyUp key (input wd)) (car wd) (camera wd)
  | GamepadConnected gp => mkWorld (handleGamepadConnected gp (input wd)) (car wd) (camera wd)
  | GamepadDisconnected gp => mkWorld (handleGamepadDisconnected gp (input wd)) (car wd) (camera wd)
  | Frame deltaTime gamepads => animate deltaTime gamepads wd
  end.

Definition run (wd : World) (es : list Event) : World := fold_left step es wd.

(** The car as [init()] creates it: at the origin, half a unit above the
    ground, not rotated. *)
Definition initialCar : Object3D :=
  mkObject3D (mkVector3 0 0.5 0) (mkQuaternion 0 0 0 1) (mkVector3 1 1 1).

(** The world when [init()] calls [animate()] for the first time; a new
    camera is at the origin. *)
Definition initialWorld : World :=
  mkWorld initialInput initialCar (mkCamera (mkVector3 0 0 0) (mkVector3 0 0 0)).

(** ** Vocabulary of the properties *)

(** What a key adds to an input when it is pressed. *)
Definition contribution (pressed : bool) (amount : R) : R :=
  if pressed then amount else 0.

(** The input of the frame that axis [n] decides: axis 0 the turn input,
    axis 1 the forward input. *)
Definition inputOfAxis (n : nat) (input : R * R) : option R :=
  match n with
  | 0%nat => Some (snd input)
  | 1%nat => Some (fst input)
  | _ => None
  end.

(** A gamepad of index 0 with 17 buttons and the given axis readings. *)
Definition pad (gpAxes : list R) : Gamepad := mkGamepad 0 gpAxes 17.

(** No gamepad is active and the tracked axes are neutral. *)
Definition keyboardOnly (i : Input) : Prop :=
  gamepadIndex i = None /\ axes (gamepadState i) = [0; 0; 0; 0].

Definition isGamepadConnected (e : Event) : bool :=
  match e with GamepadConnected _ => true | _ => false end.

Definition isFrameOrDisconnected (e : Event) : bool :=
  match e with Frame _ _ | GamepadDisconnected _ => true | _ => false end.

(** The orientation of an object turned by [yaw] about the vertical axis. *)
Definition yawQuaternion (yaw : R) : Quaternion :=
  mkQuaternion 0 (sin (yaw / 2)) 0 (cos (yaw / 2)).

(** The implicit path, run from the start: a gamepad connects, a frame
    polls its stick pushed fully forward, and in the next frame the browser
    no longer lists it. *)
Definition lostGamepadRun : list Event :=
  [ GamepadConnected (pad [0; -1; 0; 0]);
    Frame 0 [Some (pad [0; -1; 0; 0])];
    Frame 0 [None] ].

(** A source of samples whose first two attempts land on the start area
    (x = z = 0) and are rejected. *)
Definition twoRejections (n : nat) : R := if (n <? 4)%nat then 0.5 else 0.

(** A source of samples that is rejected twice and then runs through
    0, 1/4, 1/2, 3/4. *)
Definition variedSamples (n : nat) : R :=
  if (n <? 4)%nat then 0.5 else INR (n mod 4) / 4.

(** ** Vocabulary of the further properties *)

Definition isKeyEvent (e : Event) : bool :=
  match e with KeyDown _ | KeyUp _ => true | _ => false end.

Definition isKeyOrConnected (e : Event) : bool :=
  match e with KeyDown _ | KeyUp _ | GamepadConnected _ => true | _ => false end.

(** A tracked axis value as the polling loop leaves it: neutral, or not
    below the dead zone. *)
Definition snapped (value : R) : Prop := value = 0 \/ Rabs value >= deadZone.

(** Stick readings as the Gamepad API normalises them, in [-1, 1]. *)
Definition axesInRange (g : GamepadState) : Prop :=
  Forall (fun value => -1 <= value <= 1) (axes g).

(** The car is inside the boundary and on the ground. *)
Definition inBounds (c : Object3D) : Prop :=
  - boundary <= x (position c) <= boundary /\
  - boundary <= z (position c) <= boundary /\
  y (position c) = 0.5.

(** Half the width and half the depth of the car, a [BoxGeometry(2, 1, 4)]. *)
Definition carHalfWidth : R := 2 / 2.
Definition carHalfDepth : R := 4 / 2.

(** The ground footprint of an obstacle, a unit box scaled by its scale,
    overlaps the footprint of the car where [init()] puts it, at the
    origin and not rotated. *)
Definition overlapsStart (o : Object3D) : Prop :=
  Rabs (x (position o)) < x (scale o) / 2 + carHalfWidth /\
  Rabs (z (position o)) < z (scale o) / 2 + carHalfDepth.

(** The obstacle stands on the ground plane, a [PlaneGeometry(worldSize,
    worldSize)] at height 0, with its whole footprint on it. *)
Definition standsOnGround (o : Object3D) : Prop :=
  Rabs (x (position o)) + x (scale o) / 2 <= worldSize / 2 /\
  Rabs (z (position o)) + z (scale o) / 2 <= worldSize / 2 /\
  y (position o) - y (scale o) / 2 = 0.

(** ** The input logic and the update of the car on binary64

    The same statements of "Determine Input", of the polling loop and of
    [updateCar], on IEEE-754 double precision values as JavaScript has
    them, so that they can be evaluated.  [None] is [undefined]. *)

Module Binary64.

#[local] Set Warnings "-inexact-float".
Local Open Scope float_scope.

Definition deadZone : float := 0.15.

Definition keyboardInput (k : Keys.t) : float * float :=
  let forwardInput := 0 in
  let turnInput := 0 in
  let forwardInput := if Keys.w k then forwardInput - 1 else forwardInput in
  let forwardInput := if Keys.s k then forwardInput + 0.6 else forwardInput in
  let turnInput := if Keys.a k then turnInput + 1 else turnInput in
  let turnInput := if Keys.d k then turnInput - 1 else turnInput in
  (forwardInput, turnInput).

Definition snapAxis (value : float) : float :=
  if abs value <? deadZone then 0 else value.

Fixpoint readAxes (gpAxes tracked : list float) : list float :=
  match gpAxes, tracked with
  | value :: gpAxes', _ :: tracked' => snapAxis value :: readAxes gpAxes' tracked'
  | _, _ => tracked
  end.

Definition gamepadOverride (axes : list float) (kb : float * float) : float * float :=
  let '(forwardInput, turnInput) := kb in
  let gpTurn := nth_error axes 0 in
  let gpForward := option_map opp (nth_error axes 1) in
  let forwardInput :=
    match gpForward with
    | Some gpForward =>
        if deadZone <? abs gpForward
        then (if 0 <? gpForward then - gpForward else gpForward * 0.6)
        else forwardInput
    | None => forwardInput
    end in
  let turnInput :=
    match gpTurn with
    | Some gpTurn => if deadZone <? abs gpTurn then - gpTurn else turnInput
    | None => turnInput
    end in
  (forwardInput, turnInput).

(** The inputs of a frame that polls [gpAxes] into neutral tracked axes. *)
Definition polledInput (k : Keys.t) (gpAxes : list float) : float * float :=
  gamepadOverride (readAxes gpAxes [0; 0; 0; 0]) (keyboardInput k).

(** *** The update of the car on binary64

    Here a product can overflow to an infinity and [0 * Infinity] is NaN,
    which no comparison orders. *)

Record Vector3 := mkVector3 { x : float; y : float; z : float }.

Record Quaternion := mkQuaternion { qx : float; qy : float; qz : float; qw : float }.

Record Object3D := mkObject3D {
  position : Vector3;
  quaternion : Quaternion;
  scale : Vector3
}.

(** [Math.max] and [Math.min] of two numbers: NaN when an argument is NaN,
    and of [+0] and [-0] the positive one is the larger. *)
Definition Math_max (a b : float) : float :=
  if is_nan a || is_nan b then nan
  else if a <? b then b
  else if b <? a then a
  else if get_sign a then b else a.

Definition Math_min (a b : float) : float :=
  if is_nan a || is_nan b then nan
  else if a <? b then a
  else if b <? a then b
  else if get_sign a then a else b.

(** [clamp(value, min, max) = Math.max(min, Math.min(max, value))] *)
Definition clamp (value min max : float) : float := Math_max min (Math_min max value).

Definition worldSize : float := 100.
Definition boundary : float := worldSize / 2 - 2.
Definition carSpeed : float := 10.
(** [Math.PI] *)
Definition turnSpeed : float := 3.141592653589793.

Definition add (u v : Vector3) : Vector3 :=
  mkVector3 (x u + x v) (y u + y v) (z u + z v).

Definition multiplyScalar (v : Vector3) (k : float) : Vector3 :=
  mkVector3 (x v * k) (y v * k) (z v * k).

Definition applyQuaternion (v : Vector3) (q : Quaternion) : Vector3 :=
  let tx := 2 * (qy q * z v - qz q * y v) in
  let ty := 2 * (qz q * x v - qx q * z v) in
  let tz := 2 * (qx q * y v - qy q * x v) in
  mkVector3 (x v + qw q * tx + qy q * tz - qz q * ty)
            (y v + qw q * ty + qz q * tx - qx q * tz)
            (z v + qw q * tz + qx q * ty - qy q * tx).

Definition multiply (a b : Quaternion) : Quaternion :=
  mkQuaternion
    (qx a * qw b + qw a * qx b + qy a * qz b - qz a * qy b)
    (qy a * qw b + qw a * qy b + qz a * qx b - qx a * qz b)
    (qz a * qw b + qw a * qz b + qx a * qy b - qy a * qx b)
    (qw a * qw b - qx a * qx b - qy a * qy b - qz a * qz b).

Definition _yAxis : Vector3 := mkVector3 0 1 0.
Definition _zAxis : Vector3 := mkVector3 0 0 1.

Definition translateOnAxis (o : Object3D) (axis : Vector3) (distance : float) : Object3D :=
  mkObject3D
    (add (position o) (multiplyScalar (applyQuaternion axis (quaternion o)) distance))
    (quaternion o)
    (scale o).

Definition translateZ (o : Object3D) (distance : float) : Object3D :=
  translateOnAxis o _zAxis distance.

Definition boundaryChecks (car : Object3D) : Object3D :=
  let px := clamp (x (position car)) (- boundary) boundary in
  let pz := clamp (z (position car)) (- boundary) boundary in
  mkObject3D (mkVector3 px 0.5 pz) (quaternion car) (scale car).

Definition determineInput (k : Keys.t) (axes : list float) : float * float :=
  gamepadOverride axes (keyboardInput k).

Definition initialCar : Object3D :=
  mkObject3D (mkVector3 0 0.5 0) (mkQuaternion 0 0 0 1) (mkVector3 1 1 1).

Section Kinematics.

(** [Math.sin] and [Math.cos]: the language leaves their results to the
    implementation, so they are parameters here. *)
Variables Math_sin Math_cos : float -> float.

Definition setFromAxisAngle (axis : Vector3) (angle : float) : Quaternion :=
  let halfAngle := angle / 2 in
  let s := Math_sin halfAngle in
  mkQuaternion (x axis * s) (y axis * s) (z axis * s) (Math_cos halfAngle).

Definition rotateOnAxis (o : Object3D) (axis : Vector3) (angle : float) : Object3D :=
  mkObject3D (position o)
             (multiply (quaternion o) (setFromAxisAngle axis angle))
             (scale o).

Definition rotateY (o : Object3D) (angle : float) : Object3D :=
  rotateOnAxis o _yAxis angle.

(** "Apply Input"; [u !== 0] is [negb (u =? 0)], true of NaN and false of
    [-0]. *)
Definition applyInput (deltaTime : float) (input : float * float) (car : Object3D)
  : Object3D :=
  let currentTurnSpeed := turnSpeed * deltaTime in
  let currentMoveSpeed := carSpeed * deltaTime in
  let '(forwardInput, turnInput) := input in
  let car :=
    if negb (turnInput =? 0) then rotateY car (currentTurnSpeed * turnInput)
    else car in
  if negb (forwardInput =? 0) then translateZ car (currentMoveSpeed * forwardInput)
  else car.

Definition updateCar (deltaTime : float) (k : Keys.t) (axes : list float)
           (car : Object3D) : Object3D :=
  boundaryChecks (applyInput deltaTime (determineInput k axes) car).

End Kinematics.

End Binary64.

(** * Properties *)

(** ** Arithmetic of the library functions *)

Lemma clamp_inside (value lo hi : R) :
  lo <= value <= hi -> MathUtils.clamp value lo hi = value.
Proof.
  intros [Hlo Hhi]; unfold MathUtils.clamp.
  rewrite (Rmin_right hi value Hhi).
  apply Rmax_right; assumption.
Qed.

Lemma boundary_value : boundary = 48.
Proof. unfold boundary, worldSize; lra. Qed.

Lemma deadZone_pos : 0 < deadZone.
Proof. unfold deadZone; lra. Qed.

(** ** Keyboard input *)

Lemma keyboardInput_neutral (k : Keys.t) (idx : option nat) (btns : list bool) :
  determineInput (mkInput k idx (mkGamepadState [0; 0; 0; 0] btns)) =
    keyboardInput k.
Proof.
  unfold determineInput, gamepadOverride.
  cbn [keys gamepadState].
  destruct (keyboardInput k) as [f t]; cbn.
  assert (H0 : ~ Rabs (- 0) > deadZone)
    by (rewrite Ropp_0, Rabs_R0; pose proof deadZone_pos; lra).
  assert (H1 : ~ Rabs 0 > deadZone)
    by (rewrite Rabs_R0; pose proof deadZone_pos; lra).
  destruct (Rgt_dec (Rabs (- 0)) deadZone); [contradiction|].
  destruct (Rgt_dec (Rabs 0) deadZone); [contradiction|].
  reflexivity.
Qed.

(** C3: the keyboard values are sums of per-key contributions, -1 for the
    forward key, +0.6 for the back key, +1 for the left key and -1 for the
    right key; so the forward key alone gives -1, the back key alone +0.6
    and both together -0.4, and these are the inputs of the frame while the
    tracked gamepad axes are neutral. *)
Theorem keyboardInput_additive :
  (forall k,
      keyboardInput k =
        (contribution (Keys.w k) (-1) + contribution (Keys.s k) 0.6,
         contribution (Keys.a k) 1 + contribution (Keys.d k) (-1))) /\
  (forall ka kd, fst (keyboardInput (Keys.mk true ka false kd)) = -1) /\
  (forall ka kd, fst (keyboardInput (Keys.mk false ka true kd)) = 0.6) /\
  (forall ka kd, fst (keyboardInput (Keys.mk true ka true kd)) = -0.4) /\
  (forall k idx btns,
      determineInput (mkInput k idx (mkGamepadState [0; 0; 0; 0] btns)) =
        keyboardInput k).
Proof.
  split; [|split; [|split; [|split]]].
  - intros [[] [] [] []]; unfold keyboardInput, contribution; cbn;
      f_equal; lra.
  - intros ka kd; unfold keyboardInput; cbn; lra.
  - intros ka kd; unfold keyboardInput; cbn; lra.
  - intros ka kd; unfold keyboardInput; cbn; lra.
  - intros k idx btns; apply keyboardInput_neutral.
Qed.

(** ** Gamepad override *)

(** C4: when the tracked turn axis (axis 0) exceeds the dead zone in
    magnitude, the turn input of the frame is minus that axis, whatever the
    keys are. *)
Theorem turn_axis_overrides (i : Input) (gpTurn : R) :
  axis (gamepadState i) 0 = Some gpTurn ->
  Rabs gpTurn > deadZone ->
  snd (determineInput i) = - gpTurn.
Proof.
  intros Hax Habs; unfold determineInput, gamepadOverride.
  destruct (keyboardInput (keys i)) as [f t].
  rewrite Hax; cbn [snd].
  destruct (Rgt_dec (Rabs gpTurn) deadZone); [reflexivity | contradiction].
Qed.

(** With the turn axis at 0.5 and the left key pressed, the turn input is
    -0.5 and not the keyboard's +1. *)
Lemma turn_axis_overrides_left_key :
  snd (determineInput
         (mkInput (Keys.mk false true false false) (Some 0%nat)
                  (mkGamepadState [0.5; 0; 0; 0] []))) = - 0.5
  /\ snd (keyboardInput (Keys.mk false true false false)) = 1.
Proof.
  split.
  - rewrite (turn_axis_overrides
               (mkInput (Keys.mk false true false false) (Some 0%nat)
                        (mkGamepadState [0.5; 0; 0; 0] [])) 0.5).
    + lra.
    + reflexivity.
    + unfold deadZone; rewrite Rabs_right; lra.
  - unfold keyboardInput; cbn; lra.
Defined.

(** C5: when the inverted forward axis [v = - axes[1]] exceeds the dead zone
    in magnitude, the forward input of the frame is [- v] for positive [v]
    and [v * 0.6] for negative [v], whatever the keys are. *)
Theorem forward_axis_overrides (i : Input) (axisY : R) :
  axis (gamepadState i) 1 = Some axisY ->
  Rabs (- axisY) > deadZone ->
  let v := - axisY in
  (v > 0 -> fst (determineInput i) = - v) /\
  (v < 0 -> fst (determineInput i) = v * 0.6).
Proof.
  intros Hax Habs v; unfold determineInput, gamepadOverride.
  destruct (keyboardInput (keys i)) as [f t].
  rewrite Hax; cbn [fst option_map]; fold v; fold v in Habs.
  destruct (Rgt_dec (Rabs v) deadZone); [|contradiction].
  split; intros Hv; destruct (Rgt_dec v 0); try reflexivity; lra.
Qed.

(** Stick pushed fully forward ([axes[1] = -1]) with the back key held:
    forward input -1; stick pulled half back: forward input -0.5 * 0.6. *)
Lemma forward_axis_overrides_examples :
  fst (determineInput
         (mkInput (Keys.mk false false true false) (Some 0%nat)
                  (mkGamepadState [0; -1; 0; 0] []))) = - 1
  /\ fst (determineInput
         (mkInput (Keys.mk true false false false) (Some 0%nat)
                  (mkGamepadState [0; 0.5; 0; 0] []))) = - 0.5 * 0.6.
Proof.
  split.
  - destruct (forward_axis_overrides
                (mkInput (Keys.mk false false true false) (Some 0%nat)
                         (mkGamepadState [0; -1; 0; 0] [])) (-1)) as [Hpos _].
    + reflexivity.
    + unfold deadZone; rewrite Rabs_right; lra.
    + rewrite Hpos; lra.
  - destruct (forward_axis_overrides
                (mkInput (Keys.mk true false false false) (Some 0%nat)
                         (mkGamepadState [0; 0.5; 0; 0] [])) 0.5) as [_ Hneg].
    + reflexivity.
    + unfold deadZone; rewrite Rabs_left; lra.
    + rewrite Hneg; lra.
Defined.

(** ** Polling and the dead zone *)

Lemma Some_inj {A : Type} (u v : A) : Some u = Some v -> u = v.
Proof. intros H; injection H as H; exact H. Qed.

Lemma readAxes_length (gpAxes tracked : list R) :
  length (readAxes gpAxes tracked) = length tracked.
Proof.
  revert tracked; induction gpAxes as [|v gpAxes IH]; intros [|t tracked];
    cbn; try reflexivity.
  now rewrite IH.
Qed.

(** The loop by index: entry [n] is overwritten when both arrays have it. *)
Lemma readAxes_nth (gpAxes tracked : list R) (n : nat) :
  nth_error (readAxes gpAxes tracked) n =
    match nth_error gpAxes n, nth_error tracked n with
    | Some value, Some _ => Some (snapAxis value)
    | _, _ => nth_error tracked n
    end.
Proof.
  revert gpAxes tracked; induction n as [|n IH]; intros [|v gpAxes] [|t tracked];
    cbn; try reflexivity.
  - destruct (nth_error gpAxes n); reflexivity.
  - apply IH.
Qed.

(** What a poll of the active, present gamepad stores for axis [n]. *)
Lemma updateGamepadInput_axis (gamepads : list (option Gamepad)) (i : Input)
      (active : nat) (gp : Gamepad) (n : nat) (value : R) :
  gamepadIndex i = Some active ->
  nth_error gamepads active = Some (Some gp) ->
  nth_error (gp_axes gp) n = Some value ->
  (n < length (axes (gamepadState i)))%nat ->
  axis (gamepadState (updateGamepadInput gamepads i)) n = Some (snapAxis value) /\
  keys (updateGamepadInput gamepads i) = keys i.
Proof.
  intros Hact Hgp Hval Hlen; unfold updateGamepadInput, axis.
  rewrite Hact, Hgp; cbn [gamepadState axes keys].
  rewrite readAxes_nth, Hval.
  apply nth_error_Some in Hlen.
  destruct (nth_error (axes (gamepadState i)) n); [split; reflexivity | contradiction].
Qed.

Lemma turn_not_overridden (g : GamepadState) (kb : R * R) (gpTurn : R) :
  axis g 0 = Some gpTurn -> ~ Rabs gpTurn > deadZone ->
  snd (gamepadOverride g kb) = snd kb.
Proof.
  intros Hax Hn; unfold gamepadOverride; destruct kb as [f t].
  rewrite Hax; cbn [snd].
  destruct (Rgt_dec (Rabs gpTurn) deadZone); [contradiction | reflexivity].
Qed.

Lemma forward_not_overridden (g : GamepadState) (kb : R * R) (axisY : R) :
  axis g 1 = Some axisY -> ~ Rabs (- axisY) > deadZone ->
  fst (gamepadOverride g kb) = fst kb.
Proof.
  intros Hax Hn; unfold gamepadOverride; destruct kb as [f t].
  rewrite Hax; cbn [fst option_map].
  destruct (Rgt_dec (Rabs (- axisY)) deadZone); [contradiction | reflexivity].
Qed.

Lemma axis_without_effect (g : GamepadState) (kb : R * R) (n : nat) (value : R) :
  axis g n = Some value -> ~ Rabs value > deadZone ->
  inputOfAxis n (gamepadOverride g kb) = inputOfAxis n kb.
Proof.
  intros Hax Hn; destruct n as [|[|n]]; cbn [inputOfAxis]; try reflexivity; f_equal.
  - apply (turn_not_overridden g kb value); assumption.
  - apply (forward_not_overridden g kb value); [assumption|].
    rewrite Rabs_Ropp; assumption.
Qed.

(** C6: a polled reading of axis 0 or 1 whose magnitude is below the dead
    zone 0.15 is stored as 0, and the keyboard value is the input of the
    frame on that axis (turn for axis 0, forward for axis 1). *)
Theorem below_dead_zone_snapped (gamepads : list (option Gamepad)) (i : Input)
        (active : nat) (gp : Gamepad) (n : nat) (value : R) :
  gamepadIndex i = Some active ->
  nth_error gamepads active = Some (Some gp) ->
  nth_error (gp_axes gp) n = Some value ->
  (n < length (axes (gamepadState i)))%nat ->
  Rabs value < 0.15 ->
  let i' := updateGamepadInput gamepads i in
  axis (gamepadState i') n = Some 0 /\
  inputOfAxis n (determineInput i') = inputOfAxis n (keyboardInput (keys i)).
Proof.
  intros Hact Hgp Hval Hlen Hsmall i'.
  destruct (updateGamepadInput_axis gamepads i active gp n value Hact Hgp Hval Hlen)
    as [Hax Hkeys].
  fold i' in Hax, Hkeys.
  assert (Hsnap : snapAxis value = 0).
  { unfold snapAxis, deadZone; destruct (Rlt_dec (Rabs value) 0.15);
      [reflexivity | contradiction]. }
  rewrite Hsnap in Hax; split; [exact Hax|].
  unfold determineInput; rewrite Hkeys.
  apply (axis_without_effect _ _ n 0 Hax).
  rewrite Rabs_R0; pose proof deadZone_pos; lra.
Qed.

(** Readings of 0.10 on both stick axes with the forward and left keys
    held: both axes are stored as 0 and the inputs are the keyboard's. *)
Lemma below_dead_zone_snapped_reading :
  let i := mkInput (Keys.mk true true false false) (Some 0%nat)
                   (mkGamepadState [0; 0; 0; 0] []) in
  let i' := updateGamepadInput [Some (pad [0.10; 0.10; 0; 0])] i in
  (axis (gamepadState i') 0 = Some 0 /\ snd (determineInput i') = 1) /\
  (axis (gamepadState i') 1 = Some 0 /\ fst (determineInput i') = -1).
Proof.
  assert (Hsmall : Rabs 0.10 < 0.15) by (rewrite Rabs_right; lra).
  split.
  - destruct (below_dead_zone_snapped
                [Some (pad [0.10; 0.10; 0; 0])]
                (mkInput (Keys.mk true true false false) (Some 0%nat)
                         (mkGamepadState [0; 0; 0; 0] []))
                0%nat (pad [0.10; 0.10; 0; 0]) 0%nat 0.10
                eq_refl eq_refl eq_refl) as [Hax Hin].
    + cbn; lia.
    + exact Hsmall.
    + split; [exact Hax|].
      cbn [inputOfAxis] in Hin; apply Some_inj in Hin; rewrite Hin.
      unfold keyboardInput; cbn; lra.
  - destruct (below_dead_zone_snapped
                [Some (pad [0.10; 0.10; 0; 0])]
                (mkInput (Keys.mk true true false false) (Some 0%nat)
                         (mkGamepadState [0; 0; 0; 0] []))
                0%nat (pad [0.10; 0.10; 0; 0]) 1%nat 0.10
                eq_refl eq_refl eq_refl) as [Hax Hin].
    + cbn; lia.
    + exact Hsmall.
    + split; [exact Hax|].
      cbn [inputOfAxis] in Hin; apply Some_inj in Hin; rewrite Hin.
      unfold keyboardInput; cbn; lra.
Defined.

(** C10: a polled reading of axis 0 or 1 whose magnitude is exactly the
    dead zone 0.15 is stored as it is (the snap tests [<]), does not
    override (the override tests [>]), and the keyboard value is the input
    of the frame on that axis. *)
Theorem at_dead_zone_keyboard_decides (gamepads : list (option Gamepad)) (i : Input)
        (active : nat) (gp : Gamepad) (n : nat) (value : R) :
  gamepadIndex i = Some active ->
  nth_error gamepads active = Some (Some gp) ->
  nth_error (gp_axes gp) n = Some value ->
  (n < length (axes (gamepadState i)))%nat ->
  Rabs value = 0.15 ->
  let i' := updateGamepadInput gamepads i in
  axis (gamepadState i') n = Some value /\
  inputOfAxis n (determineInput i') = inputOfAxis n (keyboardInput (keys i)).
Proof.
  intros Hact Hgp Hval Hlen Heq i'.
  destruct (updateGamepadInput_axis gamepads i active gp n value Hact Hgp Hval Hlen)
    as [Hax Hkeys].
  fold i' in Hax, Hkeys.
  assert (Hsnap : snapAxis value = value).
  { unfold snapAxis, deadZone; destruct (Rlt_dec (Rabs value) 0.15);
      [lra | reflexivity]. }
  rewrite Hsnap in Hax; split; [exact Hax|].
  unfold determineInput; rewrite Hkeys.
  apply (axis_without_effect _ _ n value Hax).
  unfold deadZone; lra.
Qed.

(** Readings of 0.15 on the turn axis and -0.15 on the forward axis with
    the back and right keys held. *)
Lemma at_dead_zone_keyboard_decides_reading :
  let i := mkInput (Keys.mk false false true true) (Some 0%nat)
                   (mkGamepadState [0; 0; 0; 0] []) in
  let i' := updateGamepadInput [Some (pad [0.15; -0.15; 0; 0])] i in
  (axis (gamepadState i') 0 = Some 0.15 /\ snd (determineInput i') = -1) /\
  (axis (gamepadState i') 1 = Some (-0.15) /\ fst (determineInput i') = 0.6).
Proof.
  split.
  - destruct (at_dead_zone_keyboard_decides
                [Some (pad [0.15; -0.15; 0; 0])]
                (mkInput (Keys.mk false false true true) (Some 0%nat)
                         (mkGamepadState [0; 0; 0; 0] []))
                0%nat (pad [0.15; -0.15; 0; 0]) 0%nat 0.15
                eq_refl eq_refl eq_refl) as [Hax Hin].
    + cbn; lia.
    + rewrite Rabs_right; lra.
    + split; [exact Hax|].
      cbn [inputOfAxis] in Hin; apply Some_inj in Hin; rewrite Hin.
      unfold keyboardInput; cbn; lra.
  - destruct (at_dead_zone_keyboard_decides
                [Some (pad [0.15; -0.15; 0; 0])]
                (mkInput (Keys.mk false false true true) (Some 0%nat)
                         (mkGamepadState [0; 0; 0; 0] []))
                0%nat (pad [0.15; -0.15; 0; 0]) 1%nat (-0.15)
                eq_refl eq_refl eq_refl) as [Hax Hin].
    + cbn; lia.
    + rewrite Rabs_left; lra.
    + split; [exact Hax|].
      cbn [inputOfAxis] in Hin; apply Some_inj in Hin; rewrite Hin.
      unfold keyboardInput; cbn; lra.
Defined.

(** ** Losing the gamepad *)

Lemma keyboardOnly_determineInput (i : Input) :
  keyboardOnly i -> determineInput i = keyboardInput (keys i).
Proof.
  intros [_ Hax]; destruct i as [k idx [ax btns]]; cbn in Hax; subst ax.
  apply keyboardInput_neutral.
Qed.

Lemma keyboardOnly_step (wd : World) (e : Event) :
  isGamepadConnected e = false ->
  keyboardOnly (input wd) -> keyboardOnly (input (step wd e)).
Proof.
  intros He [Hidx Hax]; destruct e; cbn in He |- *; try discriminate.
  - split; assumption.
  - split; assumption.
  - unfold handleGamepadDisconnected; rewrite Hidx; split; assumption.
  - unfold updateGamepadInput; rewrite Hidx; split; assumption.
Qed.

Lemma keyboardOnly_run (es : list Event) (wd : World) :
  forallb (fun e => negb (isGamepadConnected e)) es = true ->
  keyboardOnly (input wd) -> keyboardOnly (input (run wd es)).
Proof.
  unfold run; revert wd; induction es as [|e es IH]; intros wd Hes Hk;
    cbn in *; [assumption|].
  apply andb_prop in Hes as [He Hes].
  apply IH; [assumption|].
  apply keyboardOnly_step; [|assumption].
  destruct (isGamepadConnected e); [discriminate | reflexivity].
Qed.

(** X19, the event path: after [gamepaddisconnected] for the active gamepad the
    reference is cleared, the axes are neutral, and as long as no gamepad
    connects, whatever keys are pressed and whatever the browser reports,
    the inputs of every frame are the keyboard's. *)
Theorem disconnect_event_keyboard_only (wd : World) (gp : Gamepad) (es : list Event) :
  gamepadIndex (input wd) = Some (index gp) ->
  forallb (fun e => negb (isGamepadConnected e)) es = true ->
  let wd' := run (step wd (GamepadDisconnected gp)) es in
  gamepadIndex (input wd') = None /\
  axes (gamepadState (input wd')) = [0; 0; 0; 0] /\
  determineInput (input wd') = keyboardInput (keys (input wd')).
Proof.
  intros Hact Hes wd'.
  assert (Hk : keyboardOnly (input wd')).
  { apply keyboardOnly_run; [assumption|].
    cbn; unfold handleGamepadDisconnected; rewrite Hact, Nat.eqb_refl.
    split; reflexivity. }
  destruct Hk as [Hidx Hax]; repeat split; try assumption.
  apply keyboardOnly_determineInput; split; assumption.
Qed.

(** While no gamepad is active, frames and disconnect events leave the
    input state as it is. *)
Lemma no_gamepad_input_stays (es : list Event) (wd : World) :
  forallb isFrameOrDisconnected es = true ->
  gamepadIndex (input wd) = None ->
  input (run wd es) = input wd.
Proof.
  unfold run; revert wd; induction es as [|e es IH]; intros wd Hes Hidx;
    [reflexivity|].
  cbn [forallb] in Hes; apply andb_prop in Hes as [He Hes].
  cbn [fold_left].
  assert (Hstep : input (step wd e) = input wd).
  { destruct e; try discriminate; cbn.
    - unfold handleGamepadDisconnected; rewrite Hidx; reflexivity.
    - unfold updateGamepadInput; rewrite Hidx; reflexivity. }
  rewrite IH; [exact Hstep | exact Hes | rewrite Hstep; exact Hidx].
Qed.

(** The tracked axes are four at every moment of a run. *)
Lemma tracked_axes_length (es : list Event) (wd : World) :
  length (axes (gamepadState (input wd))) = 4%nat ->
  length (axes (gamepadState (input (run wd es)))) = 4%nat.
Proof.
  unfold run; revert wd; induction es as [|e es IH]; intros wd Hlen;
    [exact Hlen|].
  cbn [fold_left]; apply IH.
  destruct e; cbn; try exact Hlen.
  - unfold handleGamepadConnected; destruct (gamepadIndex (input wd)); exact Hlen.
  - unfold handleGamepadDisconnected; destruct (gamepadIndex (input wd)) as [active|];
      [destruct (index gamepad =? active)%nat|]; try exact Hlen; reflexivity.
  - unfold updateGamepadInput; destruct (gamepadIndex (input wd)) as [active|];
      [|exact Hlen].
    destruct (nth_error gamepads active) as [[gp|]|]; cbn; try exact Hlen.
    rewrite readAxes_length; exact Hlen.
Qed.

(** ** Rotation and translation *)

Lemma Vector3_eq (u v : Vector3) :
  x u = x v -> y u = y v -> z u = z v -> u = v.
Proof. destruct u, v; cbn; intros; subst; reflexivity. Qed.

Lemma Quaternion_eq (p q : Quaternion) :
  qx p = qx q -> qy p = qy q -> qz p = qz q -> qw p = qw q -> p = q.
Proof. destruct p, q; cbn; intros; subst; reflexivity. Qed.

Lemma rotateY_0 (o : Object3D) : rotateY o 0 = o.
Proof.
  destruct o as [p [a b c e] sc].
  unfold rotateY, rotateOnAxis, setFromAxisAngle, multiply, _yAxis; cbn.
  replace (0 / 2) with 0 by lra; rewrite sin_0, cos_0.
  f_equal; apply Quaternion_eq; cbn; ring.
Qed.

Lemma translateZ_0 (o : Object3D) : translateZ o 0 = o.
Proof.
  destruct o as [[a b c] q sc].
  unfold translateZ, translateOnAxis, add, multiplyScalar; cbn.
  f_equal; apply Vector3_eq; cbn; ring.
Qed.

(** The two tests [!== 0] of "Apply Input" skip calls that change nothing. *)
Lemma applyInput_rotate_translate (deltaTime forwardInput turnInput : R) (c : Object3D) :
  applyInput deltaTime (forwardInput, turnInput) c =
    translateZ (rotateY c (turnSpeed * deltaTime * turnInput))
               (carSpeed * deltaTime * forwardInput).
Proof.
  unfold applyInput.
  destruct (Req_dec_T turnInput 0) as [Ht|Ht];
    destruct (Req_dec_T forwardInput 0) as [Hf|Hf]; subst;
    rewrite ?Rmult_0_r, ?rotateY_0, ?translateZ_0; reflexivity.
Qed.

Lemma rotateY_yaw (o : Object3D) (yaw angle : R) :
  quaternion o = yawQuaternion yaw ->
  quaternion (rotateY o angle) = yawQuaternion (yaw + angle).
Proof.
  intros Hq; unfold rotateY, rotateOnAxis, setFromAxisAngle, multiply, _yAxis.
  cbn [quaternion x y z]; rewrite Hq; unfold yawQuaternion; cbn [qx qy qz qw].
  replace ((yaw + angle) / 2) with (yaw / 2 + angle / 2) by lra.
  rewrite sin_plus, cos_plus.
  apply Quaternion_eq; cbn; ring.
Qed.

(** The local forward axis of an object with yaw [yaw] is
    [(sin yaw, 0, cos yaw)]. *)
Lemma forward_axis_yaw (yaw : R) :
  applyQuaternion _zAxis (yawQuaternion yaw) = mkVector3 (sin yaw) 0 (cos yaw).
Proof.
  assert (Hsin : sin yaw = 2 * sin (yaw / 2) * cos (yaw / 2)).
  { rewrite <- sin_2a; f_equal; lra. }
  assert (Hcos : cos yaw = 1 - 2 * sin (yaw / 2) * sin (yaw / 2)).
  { rewrite <- cos_2a_sin; f_equal; lra. }
  unfold applyQuaternion, yawQuaternion, _zAxis; cbn.
  rewrite Hsin, Hcos.
  apply Vector3_eq; cbn; ring.
Qed.

Lemma translateZ_yaw (o : Object3D) (yaw distance : R) :
  quaternion o = yawQuaternion yaw ->
  position (translateZ o distance) =
    mkVector3 (x (position o) + sin yaw * distance)
              (y (position o))
              (z (position o) + cos yaw * distance).
Proof.
  intros Hq; unfold translateZ, translateOnAxis; cbn [position].
  rewrite Hq, forward_axis_yaw; unfold add, multiplyScalar; cbn.
  apply Vector3_eq; cbn; ring.
Qed.


Lemma initialCar_yaw : quaternion initialCar = yawQuaternion 0.
Proof.
  unfold initialCar, yawQuaternion; cbn.
  replace (0 / 2) with 0 by lra; rewrite sin_0, cos_0; reflexivity.
Qed.

(** The pose after one [updateCar] of a car with yaw [yaw], in coordinates. *)
Lemma updateCar_yaw (deltaTime : R) (i : Input) (c : Object3D) (yaw : R) :
  quaternion c = yawQuaternion yaw ->
  let yaw' := yaw + turnSpeed * deltaTime * snd (determineInput i) in
  let distance := carSpeed * deltaTime * fst (determineInput i) in
  quaternion (updateCar deltaTime i c) = yawQuaternion yaw' /\
  position (updateCar deltaTime i c) =
    mkVector3
      (MathUtils.clamp (x (position c) + sin yaw' * distance) (- boundary) boundary)
      0.5
      (MathUtils.clamp (z (position c) + cos yaw' * distance) (- boundary) boundary).
Proof.
  intros Hyaw yaw' distance; unfold updateCar.
  rewrite (surjective_pairing (determineInput i)), applyInput_rotate_translate.
  fold distance.
  assert (Hrot : quaternion (rotateY c (turnSpeed * deltaTime * snd (determineInput i)))
                 = yawQuaternion yaw') by (apply rotateY_yaw; exact Hyaw).
  split; [exact Hrot|].
  unfold boundaryChecks; cbn [position].
  rewrite (translateZ_yaw _ yaw' distance Hrot); reflexivity.
Qed.


(** A frame of no duration leaves a car inside the bounds where it is. *)
Lemma updateCar_no_time (i : Input) (c : Object3D) :
  - boundary <= x (position c) <= boundary ->
  - boundary <= z (position c) <= boundary ->
  y (position c) = 0.5 ->
  updateCar 0 i c = c.
Proof.
  intros Hx Hz Hy; unfold updateCar.
  rewrite (surjective_pairing (determineInput i)), applyInput_rotate_translate.
  rewrite !Rmult_0_r, !Rmult_0_l, rotateY_0, translateZ_0.
  unfold boundaryChecks; rewrite !clamp_inside by assumption.
  destruct c as [[a b e] q sc]; cbn in *; subst; reflexivity.
Qed.

(** C7, on the implicit path: after the browser stops listing the active
    gamepad the reference is cleared, but the tracked axes keep the last
    reading; with no key pressed the forward input stays the stick's -1 and
    not the keyboard's 0 through all later frames and disconnect events,
    and a further frame of one second drives the car 10 units forward. *)
Theorem implicit_disconnect_keeps_axes :
  let wd := run initialWorld lostGamepadRun in
  gamepadIndex (input wd) = None /\
  axes (gamepadState (input wd)) = [0; -1; 0; 0] /\
  keyboardInput (keys (input wd)) = (0, 0) /\
  (forall es : list Event,
      forallb isFrameOrDisconnected es = true ->
      let wd' := run wd es in
      input wd' = input wd /\ fst (determineInput (input wd')) = -1) /\
  z (position (car (run wd [Frame 1 []]))) = -10.
Proof.
  assert (Hsnap0 : snapAxis 0 = 0).
  { unfold snapAxis; destruct (Rlt_dec (Rabs 0) deadZone); reflexivity. }
  assert (Hsnap1 : snapAxis (-1) = -1).
  { unfold snapAxis, deadZone; destruct (Rlt_dec (Rabs (-1)) 0.15) as [H|H];
      [rewrite Rabs_left in H; lra | reflexivity]. }
  assert (Hin : input (run initialWorld lostGamepadRun) =
                mkInput (Keys.mk false false false false) None
                        (mkGamepadState [0; -1; 0; 0] (repeat false 17))).
  { cbn. unfold updateGamepadInput; cbn. rewrite Hsnap0, Hsnap1. reflexivity. }
  assert (Hfwd : fst (determineInput (input (run initialWorld lostGamepadRun))) = -1).
  { rewrite Hin; unfold determineInput, gamepadOverride, keyboardInput; cbn.
    destruct (Rgt_dec (Rabs (- -1)) deadZone) as [H|H].
    - destruct (Rgt_dec (- -1) 0); lra.
    - exfalso; apply H; unfold deadZone; rewrite Rabs_right; lra. }
  assert (Hidx : gamepadIndex (input (run initialWorld lostGamepadRun)) = None)
    by (rewrite Hin; reflexivity).
  intros wd; fold wd in Hin, Hfwd, Hidx.
  split; [exact Hidx|].
  split; [rewrite Hin; reflexivity|].
  split; [rewrite Hin; reflexivity|].
  split.
  - intros es Hes wd'.
    assert (Hsame : input wd' = input wd)
      by (apply no_gamepad_input_stays; [exact Hes | exact Hidx]).
    split; [exact Hsame | rewrite Hsame; exact Hfwd].
  - assert (Hcar : car wd = initialCar).
    { assert (Hstay : forall i, updateCar 0 i initialCar = initialCar).
      { intros i; apply updateCar_no_time; unfold initialCar; cbn [x y z position];
          rewrite ?boundary_value; lra. }
      unfold wd, run, lostGamepadRun, initialWorld;
        cbn [fold_left step animate car input].
      rewrite !Hstay; reflexivity. }
    assert (Hturn : snd (determineInput (input wd)) = 0).
    { rewrite Hin; unfold determineInput.
      rewrite (turn_not_overridden _ _ 0); [reflexivity | reflexivity |].
      rewrite Rabs_R0; pose proof deadZone_pos; lra. }
    unfold run; cbn [fold_left step animate car input].
    assert (Hsame : updateGamepadInput [] (input wd) = input wd)
      by (unfold updateGamepadInput; rewrite Hidx; reflexivity).
    rewrite Hsame, Hcar.
    destruct (updateCar_yaw 1 (input wd) initialCar 0 initialCar_yaw) as [_ Hpos].
    rewrite Hpos, Hturn, Hfwd; cbn [z position initialCar].
    replace (0 + turnSpeed * 1 * 0) with 0 by ring.
    rewrite cos_0, clamp_inside; unfold carSpeed; [lra|].
    rewrite boundary_value; lra.
Qed.

(** ** The chase camera *)

(** For a car with yaw [yaw] the desired position is 5 above the car and 12
    behind it along its forward axis. *)
Lemma desiredCameraPosition_yaw (c : Object3D) (yaw : R) :
  quaternion c = yawQuaternion yaw ->
  desiredCameraPosition c =
    mkVector3 (x (position c) + 12 * sin yaw)
              (y (position c) + 5)
              (z (position c) + 12 * cos yaw).
Proof.
  intros Hq.
  assert (Hsin : sin yaw = 2 * sin (yaw / 2) * cos (yaw / 2)).
  { rewrite <- sin_2a; f_equal; lra. }
  assert (Hcos : cos yaw = 1 - 2 * sin (yaw / 2) * sin (yaw / 2)).
  { rewrite <- cos_2a_sin; f_equal; lra. }
  unfold desiredCameraPosition, getWorldPosition, applyQuaternion, add.
  rewrite Hq, Hsin, Hcos; unfold yawQuaternion.
  apply Vector3_eq; cbn; ring.
Qed.

Lemma lerp_same (v : Vector3) (alpha : R) : lerp v v alpha = v.
Proof. unfold lerp; apply Vector3_eq; cbn; ring. Qed.

(** C9: a camera that is at the desired position (the car's world position
    plus the offset (0, 5, 12) rotated by the car's orientation) stays
    there under [updateCamera], for one frame and for any number of frames
    in which the car keeps its pose. *)
Theorem camera_fixed_point (c : Object3D) (cam : Camera) :
  cam_position cam = desiredCameraPosition c ->
  cam_position (updateCamera c cam) = cam_position cam /\
  forall frames : nat,
    cam_position (Nat.iter frames (updateCamera c) cam) = cam_position cam.
Proof.
  intros Hat.
  assert (Hone : forall cam', cam_position cam' = desiredCameraPosition c ->
                              cam_position (updateCamera c cam') = cam_position cam').
  { intros cam' H; unfold updateCamera; cbn [cam_position].
    rewrite <- H; apply lerp_same. }
  split; [apply Hone; exact Hat|].
  induction frames as [|n IH]; [reflexivity|].
  rewrite Nat.iter_succ, Hone; [exact IH | rewrite IH; exact Hat].
Qed.

(** The camera behind the car at its start, at (0, 5.5, 12). *)
Lemma camera_fixed_point_start :
  cam_position (updateCamera initialCar (mkCamera (mkVector3 0 5.5 12) (mkVector3 0 0.5 0)))
  = mkVector3 0 5.5 12.
Proof.
  apply (camera_fixed_point initialCar (mkCamera (mkVector3 0 5.5 12) (mkVector3 0 0.5 0))).
  cbn [cam_position].
  rewrite (desiredCameraPosition_yaw initialCar 0 initialCar_yaw).
  rewrite sin_0, cos_0; apply Vector3_eq; cbn; lra.
Defined.

(** ** The obstacle field *)

Section ObstacleField.

Variable random : nat -> R.

Lemma randFloatSpread_range (r : R) :
  0 <= r < 1 ->
  Rabs (MathUtils.randFloatSpread (worldSize * 0.9) r) <= worldSize * 0.9 / 2.
Proof.
  intros Hr; unfold MathUtils.randFloatSpread, worldSize.
  apply Rabs_le; lra.
Qed.

Lemma randFloat_range (r : R) :
  0 <= r < 1 -> 1 <= MathUtils.randFloat 1 4 r <= 4.
Proof. intros Hr; unfold MathUtils.randFloat; lra. Qed.

Lemma placeObstacle_accepted (fuel calls : nat) :
  accepted random calls ->
  placeObstacle random (S fuel) calls =
    Some (MathUtils.randFloatSpread (worldSize * 0.9) (random calls),
          MathUtils.randFloatSpread (worldSize * 0.9) (random (S calls)),
          S (S calls)).
Proof.
  intros Hacc; cbn.
  destruct (outsideStart_dec _ _); [reflexivity | contradiction].
Qed.

Lemma placeObstacle_rejected (fuel calls : nat) :
  ~ accepted random calls ->
  placeObstacle random (S fuel) calls = placeObstacle random fuel (S (S calls)).
Proof.
  intros Hrej; cbn.
  destruct (outsideStart_dec _ _); [contradiction | reflexivity].
Qed.

Lemma placeObstacle_sound (fuel calls : nat) (px pz : R) (calls' : nat) :
  placeObstacle random fuel calls = Some (px, pz, calls') ->
  outsideStart px pz /\
  exists k, px = MathUtils.randFloatSpread (worldSize * 0.9) (random k) /\
            pz = MathUtils.randFloatSpread (worldSize * 0.9) (random (S k)).
Proof.
  revert calls; induction fuel as [|fuel IH]; intros calls H; cbn in H;
    [discriminate|].
  destruct (outsideStart_dec _ _) as [Hout|Hin].
  - injection H as <- <- <-; split; [exact Hout|].
    exists calls; split; reflexivity.
  - apply (IH _ H).
Qed.

Lemma placeObstacle_more_fuel (fuel fuel' calls : nat) (r : R * R * nat) :
  placeObstacle random fuel calls = Some r ->
  (fuel <= fuel')%nat ->
  placeObstacle random fuel' calls = Some r.
Proof.
  revert fuel' calls; induction fuel as [|fuel IH]; intros fuel' calls H Hle;
    cbn in H; [discriminate|].
  destruct fuel' as [|fuel']; [lia|]; cbn.
  destruct (outsideStart_dec _ _); [exact H|].
  apply IH; [exact H | lia].
Qed.

Lemma placeObstacle_ends (attempts calls : nat) :
  accepted random (calls + 2 * attempts) ->
  exists r, placeObstacle random (S attempts) calls = Some r.
Proof.
  revert calls; induction attempts as [|attempts IH]; intros calls Hacc.
  - replace (calls + 2 * 0)%nat with calls in Hacc by lia.
    rewrite placeObstacle_accepted by exact Hacc; eexists; reflexivity.
  - replace (calls + 2 * S attempts)%nat with (S (S calls) + 2 * attempts)%nat
      in Hacc by lia.
    destruct (outsideStart_dec
                (MathUtils.randFloatSpread (worldSize * 0.9) (random calls))
                (MathUtils.randFloatSpread (worldSize * 0.9) (random (S calls))))
      as [Hnow|Hnot].
    + rewrite placeObstacle_accepted by exact Hnow; eexists; reflexivity.
    + rewrite placeObstacle_rejected by exact Hnot; apply IH; exact Hacc.
Qed.

Lemma obstacleMesh_wellPlaced (px pz : R) (k n : nat) :
  validRandom random ->
  outsideStart px pz ->
  px = MathUtils.randFloatSpread (worldSize * 0.9) (random k) ->
  pz = MathUtils.randFloatSpread (worldSize * 0.9) (random (S k)) ->
  wellPlaced (obstacleMesh px pz (MathUtils.randFloat 1 4 (random n))).
Proof.
  intros Hvalid Hout Hx Hz; unfold wellPlaced, obstacleMesh; cbn.
  split; [exact Hout|].
  split; [intros [H1 H2]; destruct Hout; lra|].
  split; [subst px; apply randFloatSpread_range, Hvalid|].
  split; [subst pz; apply randFloatSpread_range, Hvalid|].
  exists (MathUtils.randFloat 1 4 (random n)).
  split; [apply randFloat_range, Hvalid|].
  split; reflexivity.
Qed.

(** Whatever the fuel: a run that returns has pushed [count] obstacles,
    each of them well placed. *)
Lemma createObstaclesLoop_sound (fuel count calls : nat)
      (obstacles obstacles' : list Object3D) (calls' : nat) :
  validRandom random ->
  createObstaclesLoop random fuel count calls obstacles = Some (obstacles', calls') ->
  length obstacles' = (length obstacles + count)%nat /\
  (Forall wellPlaced obstacles -> Forall wellPlaced obstacles').
Proof.
  intros Hvalid; revert calls obstacles.
  induction count as [|count IH]; intros calls obstacles H; cbn in H.
  - injection H as <- <-; split; [lia | auto].
  - destruct (placeObstacle random fuel calls) as [[[px pz] calls1]|] eqn:Hp;
      [|discriminate].
    destruct (placeObstacle_sound _ _ _ _ _ Hp) as [Hout [k [Hx Hz]]].
    destruct (IH _ _ H) as [Hlen Hall].
    rewrite length_app in Hlen; cbn in Hlen.
    split; [lia|].
    intros Hold; apply Hall, Forall_app; split; [exact Hold|].
    constructor; [|constructor].
    apply (obstacleMesh_wellPlaced px pz k calls1 Hvalid Hout Hx Hz).
Qed.

(** With rejection loops that end, enough fuel makes the run return. *)
Lemma createObstaclesLoop_ends (count : nat) :
  loopsEnd random ->
  forall calls, exists fuel0, forall fuel, (fuel0 <= fuel)%nat ->
    forall obstacles,
    exists r, createObstaclesLoop random fuel count calls obstacles = Some r.
Proof.
  intros Hend; induction count as [|count IH]; intros calls.
  - exists 0%nat; intros fuel _ obstacles; eexists; reflexivity.
  - destruct (Hend calls) as [attempts Hacc].
    destruct (placeObstacle_ends attempts calls Hacc) as [[[px pz] calls1] Hp].
    destruct (IH (S calls1)) as [fuel1 Hrest].
    exists (Nat.max (S attempts) fuel1); intros fuel Hle obstacles.
    cbn [createObstaclesLoop].
    rewrite (placeObstacle_more_fuel _ fuel _ _ Hp) by lia.
    apply Hrest; lia.
Qed.

Lemma placeObstacle_first (fuel calls : nat) (px pz : R) (calls' : nat) :
  placeObstacle random fuel calls = Some (px, pz, calls') ->
  exists k, firstAccepted random calls k /\ calls' = S (S k) /\
            px = MathUtils.randFloatSpread (worldSize * 0.9) (random k) /\
            pz = MathUtils.randFloatSpread (worldSize * 0.9) (random (S k)).
Proof.
  revert calls; induction fuel as [|fuel IH]; intros calls H; cbn in H;
    [discriminate|].
  destruct (outsideStart_dec _ _) as [Hout|Hrej].
  - injection H as <- <- <-; exists calls.
    split; [|repeat split].
    split; [exact Hout|].
    exists 0%nat; split; [lia | intros j Hj; lia].
  - destruct (IH _ H) as (k & (Hacc & r & Hk & Hbefore) & Hcalls & Hx & Hz).
    exists k; split; [|repeat split; assumption].
    split; [exact Hacc|].
    exists (S r); split; [lia|].
    intros [|j] Hj.
    + replace (calls + 2 * 0)%nat with calls by lia; exact Hrej.
    + replace (calls + 2 * S j)%nat with (S (S calls) + 2 * j)%nat by lia.
      apply Hbefore; lia.
Qed.

Lemma obstacleMesh_drawnAt (k : nat) :
  drawnAt random k
    (obstacleMesh (MathUtils.randFloatSpread (worldSize * 0.9) (random k))
                  (MathUtils.randFloatSpread (worldSize * 0.9) (random (S k)))
                  (MathUtils.randFloat 1 4 (random (S (S k))))).
Proof.
  unfold drawnAt, obstacleMesh, MathUtils.randFloatSpread, MathUtils.randFloat.
  cbn [position THREE.scale x y z]; repeat split; reflexivity.
Qed.

(** The obstacles pushed by a run that returns, and the draws they are
    made of. *)
Lemma createObstaclesLoop_draws (fuel count calls : nat)
      (obstacles obstacles' : list Object3D) (calls' : nat) :
  createObstaclesLoop random fuel count calls obstacles = Some (obstacles', calls') ->
  exists pushed starts,
    obstacles' = obstacles ++ pushed /\
    drawsInTurn random calls starts /\
    Forall2 (drawnAt random) starts pushed.
Proof.
  revert calls obstacles; induction count as [|count IH]; intros calls obstacles H;
    cbn in H.
  - injection H as <- <-; exists [], []; split; [symmetry; apply app_nil_r|].
    split; constructor.
  - destruct (placeObstacle random fuel calls) as [[[px pz] calls1]|] eqn:Hp;
      [|discriminate].
    destruct (placeObstacle_first _ _ _ _ _ Hp) as (k & Hfirst & Hcalls & Hx & Hz).
    subst calls1 px pz.
    destruct (IH _ _ H) as (pushed & starts & Happ & Hturn & Hall).
    exists (obstacleMesh (MathUtils.randFloatSpread (worldSize * 0.9) (random k))
                         (MathUtils.randFloatSpread (worldSize * 0.9) (random (S k)))
                         (MathUtils.randFloat 1 4 (random (S (S k)))) :: pushed),
           (k :: starts).
    split; [rewrite Happ, <- app_assoc; reflexivity|].
    split.
    + cbn [drawsInTurn]; split; [exact Hfirst|].
      replace (k + 3)%nat with (S (S (S k))) by lia; exact Hturn.
    + constructor; [apply obstacleMesh_drawnAt | exact Hall].
Qed.

(** C8: with samples in [0, 1) and rejection loops that end,
    [createObstacles(30)] returns once the fuel suffices, and its result
    has exactly 30 obstacles.  The n-th obstacle is made of three draws of
    its own: x and z are [worldSize * 0.9 * (0.5 - r)] for the two draws of
    the first accepted attempt after the draws of the obstacle before, and
    the scale on all three axes is [1 + r * 3] for the draw that follows,
    with y at half the scale.  So each has |x| > 5 or |z| > 5 (never both
    within 5), both coordinates within 90% of the world extent around the
    origin and a scale factor in [1, 4]. *)
Theorem createObstacles_thirty :
  validRandom random -> loopsEnd random ->
  exists fuel0, forall fuel, (fuel0 <= fuel)%nat ->
    exists obstacles starts,
      createObstacles random fuel 30 = Some obstacles /\
      length obstacles = 30%nat /\
      drawsInTurn random 0 starts /\
      Forall2 (drawnAt random) starts obstacles /\
      Forall wellPlaced obstacles.
Proof.
  intros Hvalid Hend.
  destruct (createObstaclesLoop_ends 30 Hend 0%nat) as [fuel0 Hfuel].
  exists fuel0; intros fuel Hle.
  destruct (Hfuel fuel Hle []) as [[obstacles calls'] Hrun].
  destruct (createObstaclesLoop_draws _ _ _ _ _ _ Hrun)
    as (pushed & starts & Happ & Hturn & Hdrawn).
  cbn [app] in Happ; subst pushed.
  exists obstacles, starts; unfold createObstacles; rewrite Hrun.
  destruct (createObstaclesLoop_sound _ _ _ _ _ _ Hvalid Hrun) as [Hlen Hall].
  split; [reflexivity|]. split; [exact Hlen|].
  split; [exact Hturn|]. split; [exact Hdrawn|].
  apply Hall; constructor.
Qed.

End ObstacleField.

Lemma variedSamples_valid : validRandom variedSamples.
Proof.
  intros n; unfold variedSamples; destruct (n <? 4)%nat; [lra|].
  pose proof (Nat.mod_upper_bound n 4) as Hlt.
  destruct (n mod 4)%nat as [|[|[|[|m]]]]; cbn [INR]; try lra; lia.
Qed.

Lemma variedSamples_loopsEnd : loopsEnd variedSamples.
Proof.
  intros calls; exists 2%nat; unfold accepted, variedSamples.
  replace (calls + 2 * 2 <? 4)%nat with false by (symmetry; apply Nat.ltb_ge; lia).
  replace (S (calls + 2 * 2) <? 4)%nat with false by (symmetry; apply Nat.ltb_ge; lia).
  unfold outsideStart, MathUtils.randFloatSpread, worldSize.
  assert (Hnext : (S (calls + 2 * 2) mod 4 = (1 + (calls + 2 * 2) mod 4) mod 4)%nat).
  { symmetry; exact (Nat.Div0.add_mod_idemp_r 1 (calls + 2 * 2) 4). }
  rewrite Hnext.
  assert (Hlt : ((calls + 2 * 2) mod 4 < 4)%nat) by (apply Nat.mod_upper_bound; lia).
  destruct ((calls + 2 * 2) mod 4)%nat as [|[|[|[|m]]]]; try lia.
  - left; change (INR 0) with 0; rewrite Rabs_right; lra.
  - left; change (INR 1) with 1; rewrite Rabs_right; lra.
  - right; change ((1 + 2) mod 4)%nat with 3%nat.
    change (INR 3) with (1 + 1 + 1); rewrite Rabs_left; lra.
  - left; change (INR 3) with (1 + 1 + 1); rewrite Rabs_left; lra.
Qed.

(** Thirty obstacles from the source of samples that is rejected twice and
    then varies. *)
Lemma createObstacles_thirty_variedSamples :
  exists fuel0, forall fuel, (fuel0 <= fuel)%nat ->
    exists obstacles starts,
      createObstacles variedSamples fuel 30 = Some obstacles /\
      length obstacles = 30%nat /\
      drawsInTurn variedSamples 0 starts /\
      Forall2 (drawnAt variedSamples) starts obstacles /\
      Forall wellPlaced obstacles.
Proof.
  apply (createObstacles_thirty variedSamples).
  - exact variedSamples_valid.
  - exact variedSamples_loopsEnd.
Defined.

(** Its first two obstacles differ: after two rejected attempts the first
    is made of the draws 0, 1/4 and 1/2, the second of 3/4, 0 and 1/4. *)
Lemma createObstacles_variedSamples_two :
  exists o1 o2,
    createObstacles variedSamples 3 2 = Some [o1; o2] /\
    position o1 = mkVector3 45 1.25 22.5 /\
    scale o1 = mkVector3 2.5 2.5 2.5 /\
    position o2 = mkVector3 (-22.5) 0.875 45 /\
    scale o2 = mkVector3 1.75 1.75 1.75.
Proof.
  assert (Hrej : forall calls, (calls < 3)%nat -> ~ accepted variedSamples calls).
  { intros calls Hlt; unfold accepted, variedSamples.
    replace (calls <? 4)%nat with true by (symmetry; apply Nat.ltb_lt; lia).
    replace (S calls <? 4)%nat with true by (symmetry; apply Nat.ltb_lt; lia).
    unfold outsideStart, MathUtils.randFloatSpread, worldSize.
    replace (100 * 0.9 * (0.5 - 0.5)) with 0 by lra.
    rewrite Rabs_R0; lra. }
  assert (H4 : accepted variedSamples 4).
  { left; unfold variedSamples, MathUtils.randFloatSpread, worldSize.
    change (4 <? 4)%nat with false; change (4 mod 4)%nat with 0%nat.
    change (INR 0) with 0; rewrite Rabs_right; lra. }
  assert (H7 : accepted variedSamples 7).
  { left; unfold variedSamples, MathUtils.randFloatSpread, worldSize.
    change (7 <? 4)%nat with false; change (7 mod 4)%nat with 3%nat.
    change (INR 3) with (1 + 1 + 1); rewrite Rabs_left; lra. }
  eexists; eexists; split.
  - unfold createObstacles; cbn [createObstaclesLoop].
    rewrite !placeObstacle_rejected by (apply Hrej; lia).
    rewrite placeObstacle_accepted by exact H4.
    cbn [createObstaclesLoop].
    rewrite placeObstacle_accepted by exact H7.
    cbn [option_map fst app]; reflexivity.
  - unfold obstacleMesh, variedSamples, MathUtils.randFloatSpread,
      MathUtils.randFloat, worldSize; cbn [position scale x y z].
    change (4 <? 4)%nat with false; change (5 <? 4)%nat with false;
      change (6 <? 4)%nat with false; change (7 <? 4)%nat with false;
      change (8 <? 4)%nat with false; change (9 <? 4)%nat with false.
    change (4 mod 4)%nat with 0%nat; change (5 mod 4)%nat with 1%nat;
      change (6 mod 4)%nat with 2%nat; change (7 mod 4)%nat with 3%nat;
      change (8 mod 4)%nat with 0%nat; change (9 mod 4)%nat with 1%nat.
    change (INR 0) with 0; change (INR 1) with 1; change (INR 2) with (1 + 1);
      change (INR 3) with (1 + 1 + 1).
    repeat split; f_equal; lra.
Qed.

(** Two attempts are rejected before the third is accepted at x = z = 45;
    a source that always returns 0.5 is rejected for ever, whatever the
    fuel. *)
Lemma placeObstacle_twoRejections :
  placeObstacle twoRejections 2 0 = None /\
  placeObstacle twoRejections 3 0 =
    Some (MathUtils.randFloatSpread (worldSize * 0.9) 0,
          MathUtils.randFloatSpread (worldSize * 0.9) 0, 6%nat) /\
  MathUtils.randFloatSpread (worldSize * 0.9) 0 = 45.
Proof.
  assert (Hrej : forall calls, (calls < 3)%nat -> ~ accepted twoRejections calls).
  { intros calls Hlt; unfold accepted, twoRejections.
    replace (calls <? 4)%nat with true by (symmetry; apply Nat.ltb_lt; lia).
    replace (S calls <? 4)%nat with true by (symmetry; apply Nat.ltb_lt; lia).
    unfold outsideStart, MathUtils.randFloatSpread, worldSize.
    replace (100 * 0.9 * (0.5 - 0.5)) with 0 by lra.
    rewrite Rabs_R0; lra. }
  assert (Hacc : accepted twoRejections 4).
  { unfold accepted, twoRejections; cbn [Nat.ltb Nat.leb].
    left; unfold MathUtils.randFloatSpread, worldSize; rewrite Rabs_right; lra. }
  split; [|split].
  - rewrite !placeObstacle_rejected by (apply Hrej; lia); reflexivity.
  - rewrite !placeObstacle_rejected by (apply Hrej; lia).
    rewrite placeObstacle_accepted by exact Hacc; reflexivity.
  - unfold MathUtils.randFloatSpread, worldSize; lra.
Qed.

Lemma createObstacles_stuck (fuel count : nat) :
  createObstacles (fun _ => 0.5) fuel (S count) = None.
Proof.
  assert (Hno : ~ outsideStart (MathUtils.randFloatSpread (worldSize * 0.9) 0.5)
                               (MathUtils.randFloatSpread (worldSize * 0.9) 0.5)).
  { unfold outsideStart, MathUtils.randFloatSpread, worldSize.
    replace (100 * 0.9 * (0.5 - 0.5)) with 0 by lra.
    rewrite Rabs_R0; lra. }
  assert (Hplace : forall f calls, placeObstacle (fun _ => 0.5) f calls = None).
  { induction f as [|f IH]; intros calls; cbn; [reflexivity|].
    destruct (outsideStart_dec _ _); [contradiction | apply IH]. }
  unfold createObstacles; cbn [createObstaclesLoop].
  rewrite Hplace; reflexivity.
Qed.

(** ** The scalar input logic on binary64, evaluated

    The readings named in the properties above give the same inputs on
    double precision values as on the reals. *)

Section Binary64Examples.

#[local] Set Warnings "-inexact-float".
Local Open Scope float_scope.

(** Forward alone, back alone, both: -1, 0.6 and -0.4 as doubles. *)
Example forward_back_keys :
fst (Binary64.keyboardInput (Keys.mk true false false false)) = -1 /\
fst (Binary64.keyboardInput (Keys.mk false false true false)) = 0.6 /\
fst (Binary64.keyboardInput (Keys.mk true false true false)) = -0.4.
Proof. repeat split; reflexivity. Qed.

(** Turn axis at 0.5 with the left key: -0.5. *)
Example turn_axis_and_left_key :
snd (Binary64.polledInput (Keys.mk false true false false) [0.5; 0; 0; 0]) = -0.5.
Proof. reflexivity. Qed.

(** Readings of 0.10 are stored as 0 and the keys decide. *)
Example reading_below_dead_zone :
Binary64.readAxes [0.10; 0.10; 0; 0] [0; 0; 0; 0] = [0; 0; 0; 0] /\
Binary64.polledInput (Keys.mk true true false false) [0.10; 0.10; 0; 0] = (-1, 1).
Proof. split; reflexivity. Qed.

(** Readings of magnitude 0.15 are stored as they are and the keys decide. *)
Example reading_at_dead_zone :
Binary64.readAxes [0.15; -0.15; 0; 0] [0; 0; 0; 0] = [0.15; -0.15; 0; 0] /\
Binary64.polledInput (Keys.mk false false true true) [0.15; -0.15; 0; 0] = (0.6, -1).
Proof. split; reflexivity. Qed.

(** Stick fully forward and stick half back, against the opposite key. *)
Example forward_axis :
fst (Binary64.polledInput (Keys.mk false false true false) [0; -1; 0; 0]) = -1 /\
fst (Binary64.polledInput (Keys.mk true false false false) [0; 0.5; 0; 0]) = -0.5 * 0.6.
Proof. split; reflexivity. Qed.

End Binary64Examples.

(** ** The boundary checks on binary64 *)

Section Binary64Bounds.

#[local] Set Warnings "-inexact-float".
Local Open Scope float_scope.
Import Binary64.

Lemma SFcompare_antisym (a b : spec_float) :
  SFcompare b a = option_map CompOpp (SFcompare a b).
Proof.
  destruct a as [sa|sa| |sa ma ea], b as [sb|sb| |sb mb eb]; cbn;
    try reflexivity;
    try (destruct sa; reflexivity); try (destruct sb; reflexivity);
    try (destruct sa, sb; reflexivity).
  destruct sa, sb; cbn; try reflexivity; f_equal.
  - rewrite (Z.compare_antisym eb ea).
    destruct (eb ?= ea)%Z; cbn; try reflexivity.
    f_equal; symmetry; apply (Pos.compare_cont_antisym ma mb Eq).
  - rewrite (Z.compare_antisym eb ea).
    destruct (eb ?= ea)%Z; cbn; try reflexivity.
    symmetry; apply (Pos.compare_cont_antisym ma mb Eq).
Qed.

Lemma is_nan_spec (v : float) : is_nan v = false -> Prim2SF v <> S754_nan.
Proof.
  unfold is_nan; rewrite eqb_spec; intros H E; rewrite E in H; discriminate.
Qed.

Lemma SFcompare_numbers (a b : spec_float) :
  a <> S754_nan -> b <> S754_nan -> exists o, SFcompare a b = Some o.
Proof.
  intros Ha Hb; destruct a, b; try contradiction; cbn; eexists; reflexivity.
Qed.

Lemma ltb_leb (a b : float) : (a <? b) = true -> (a <=? b) = true.
Proof.
  rewrite ltb_spec, leb_spec; unfold SFltb, SFleb.
  destruct (SFcompare _ _) as [[]|]; intros; try discriminate; reflexivity.
Qed.

Lemma not_ltb_leb (a b : float) :
  is_nan a = false -> is_nan b = false -> (a <? b) = false -> (b <=? a) = true.
Proof.
  intros Ha Hb; rewrite ltb_spec, leb_spec; unfold SFltb, SFleb.
  rewrite (SFcompare_antisym (Prim2SF a) (Prim2SF b)).
  destruct (SFcompare_numbers _ _ (is_nan_spec a Ha) (is_nan_spec b Hb)) as [o Ho].
  rewrite Ho; destruct o; cbn; intros; try discriminate; reflexivity.
Qed.

Lemma leb_refl (a : float) : is_nan a = false -> (a <=? a) = true.
Proof.
  intros Ha; apply not_ltb_leb; try assumption.
  rewrite ltb_spec; unfold SFltb.
  pose proof (SFcompare_antisym (Prim2SF a) (Prim2SF a)) as H.
  destruct (SFcompare _ _) as [[]|]; cbn in H; try discriminate; reflexivity.
Qed.

Lemma leb_not_ltb (a b : float) : (a <=? b) = true -> (b <? a) = false.
Proof.
  rewrite ltb_spec, leb_spec; unfold SFltb, SFleb.
  rewrite (SFcompare_antisym (Prim2SF a) (Prim2SF b)).
  destruct (SFcompare _ _) as [[]|]; cbn; intros; try discriminate; reflexivity.
Qed.

Lemma Math_min_cases (hi v : float) :
  is_nan hi = false -> is_nan v = false ->
  Math_min hi v = hi \/ (Math_min hi v = v /\ (v <=? hi) = true).
Proof.
  intros Hh Hv; unfold Math_min; rewrite Hh, Hv; cbn [orb].
  destruct (hi <? v) eqn:H1; [left; reflexivity|].
  assert (Hle : (v <=? hi) = true) by (apply not_ltb_leb; assumption).
  destruct (v <? hi); [right; split; [reflexivity | exact Hle]|].
  destruct (get_sign hi); [left; reflexivity | right; split; [reflexivity | exact Hle]].
Qed.

Lemma Math_max_bounds (lo hi u : float) :
  is_nan lo = false -> is_nan u = false ->
  (lo <=? hi) = true -> (u <=? hi) = true ->
  (lo <=? Math_max lo u) = true /\ (Math_max lo u <=? hi) = true.
Proof.
  intros Hl Hu Hlh Huh; unfold Math_max; rewrite Hl, Hu; cbn [orb].
  destruct (lo <? u) eqn:H1; [split; [apply ltb_leb; exact H1 | exact Huh]|].
  assert (Hul : (u <=? lo) = true) by (apply not_ltb_leb; assumption).
  destruct (u <? lo) eqn:H2; [split; [apply leb_refl; exact Hl | exact Hlh]|].
  assert (Hlu : (lo <=? u) = true) by (apply not_ltb_leb; assumption).
  destruct (get_sign lo); split; try assumption; apply leb_refl; assumption.
Qed.

Lemma clamp_number (v lo hi : float) :
  is_nan lo = false -> is_nan hi = false -> (lo <=? hi) = true ->
  is_nan v = false ->
  (lo <=? clamp v lo hi) = true /\ (clamp v lo hi <=? hi) = true.
Proof.
  intros Hl Hh Hlh Hv; unfold clamp.
  destruct (Math_min_cases hi v Hh Hv) as [E|[E Hle]]; rewrite E.
  - apply Math_max_bounds; try assumption. apply leb_refl; assumption.
  - apply Math_max_bounds; assumption.
Qed.

Lemma clamp_nan (v lo hi : float) : is_nan v = true -> clamp v lo hi = nan.
Proof.
  intros Hv; unfold clamp, Math_min; rewrite Hv, orb_true_r.
  unfold Math_max; replace (is_nan nan) with true by reflexivity.
  rewrite orb_true_r; reflexivity.
Qed.

(** C1: after one [updateCar] on binary64, whatever the prior pose, the
    elapsed time and the keys and gamepad axes: a coordinate x or z that is
    a number after the translation (infinite or not) lies in
    [-(worldSize/2 - 2), worldSize/2 - 2] after the boundary checks, a
    coordinate that is NaN after the translation stays NaN, and y is the
    ground offset 0.5. *)
Theorem updateCar_within_bounds_or_nan (Math_sin Math_cos : float -> float)
        (deltaTime : float) (k : Keys.t) (axes : list float) (c : Object3D) :
  let moved := applyInput Math_sin Math_cos deltaTime (determineInput k axes) c in
  let c' := updateCar Math_sin Math_cos deltaTime k axes c in
  (is_nan (x (position moved)) = false ->
   (- (worldSize / 2 - 2) <=? x (position c')) = true /\
   (x (position c') <=? worldSize / 2 - 2) = true) /\
  (is_nan (z (position moved)) = false ->
   (- (worldSize / 2 - 2) <=? z (position c')) = true /\
   (z (position c') <=? worldSize / 2 - 2) = true) /\
  (is_nan (x (position moved)) = true -> is_nan (x (position c')) = true) /\
  (is_nan (z (position moved)) = true -> is_nan (z (position c')) = true) /\
  y (position c') = 0.5.
Proof.
  intros moved c'; unfold c', updateCar; fold moved.
  unfold boundaryChecks; cbn [position x y z]; fold boundary.
  assert (Hlo : is_nan (- boundary) = false) by reflexivity.
  assert (Hhi : is_nan boundary = false) by reflexivity.
  assert (Hle : (- boundary <=? boundary) = true) by reflexivity.
  split; [|split; [|split; [|split]]].
  - intros Hx; apply clamp_number; assumption.
  - intros Hz; apply clamp_number; assumption.
  - intros Hx; rewrite (clamp_nan _ _ _ Hx); reflexivity.
  - intros Hz; rewrite (clamp_nan _ _ _ Hz); reflexivity.
  - reflexivity.
Qed.

(** A stalled frame of 1e300 seconds with the forward key, from the start:
    the car is at the edge, at (0, 0.5, -48).  The frame does not turn, so
    [Math.sin] and [Math.cos] are not called. *)
Lemma updateCar_stalled_frame :
  let c' := updateCar (fun _ => 0) (fun _ => 1) 1e300
                      (Keys.mk true false false false) [0; 0; 0; 0] initialCar in
  ((-48 <=? x (position c')) = true /\ (x (position c') <=? 48) = true) /\
  ((-48 <=? z (position c')) = true /\ (z (position c') <=? 48) = true) /\
  position c' = mkVector3 0 0.5 (-48).
Proof.
  destruct (updateCar_within_bounds_or_nan
              (fun _ => 0) (fun _ => 1) 1e300
              (Keys.mk true false false false) [0; 0; 0; 0] initialCar)
    as (Hx & Hz & _ & _ & _).
  split; [apply Hx; reflexivity|].
  split; [apply Hz; reflexivity|].
  reflexivity.
Defined.

(** With an elapsed time of 1e308 seconds and the forward key, from the
    start: [carSpeed * deltaTime] overflows to infinity, the translation
    multiplies the x component 0 of the forward axis by it, and x is NaN
    before and after the boundary checks: neither [-48 <= x] nor [x <= 48]
    holds. *)
Lemma updateCar_overflow_not_a_number :
  (0 <=? 1e308) = true /\
  forall Math_sin Math_cos : float -> float,
    let c' := updateCar Math_sin Math_cos 1e308
                        (Keys.mk true false false false) [0; 0; 0; 0] initialCar in
    is_nan (x (position c')) = true /\
    (- (worldSize / 2 - 2) <=? x (position c')) = false /\
    (x (position c') <=? worldSize / 2 - 2) = false /\
    position c' = mkVector3 nan 0.5 (-48).
Proof.
  split; [reflexivity|].
  intros Math_sin Math_cos; repeat split; reflexivity.
Qed.

End Binary64Bounds.

(** * The key handlers, evaluated *)

(** Letters in either case and the arrow keys latch the four flags; other
    keys change nothing; a repeated key-down is a no-op. *)
Example key_handlers :
  setKey true "W" (Keys.mk false false false false) = Keys.mk true false false false /\
  setKey true "ArrowLeft" (Keys.mk false false false false) = Keys.mk false true false false /\
  setKey false "arrowdown" (Keys.mk true true true true) = Keys.mk true true false true /\
  setKey true "d" (Keys.mk false false false false) = Keys.mk false false false true /\
  setKey true "Shift" (Keys.mk false true false false) = Keys.mk false true false false.
Proof. repeat split; reflexivity. Qed.

Lemma handleKeyDown_idempotent (key : string) (i : Input) :
  handleKeyDown key (handleKeyDown key i) = handleKeyDown key i.
Proof.
  unfold handleKeyDown, setKey; cbn [keys gamepadIndex gamepadState].
  destruct (toLowerCase key =? "w")%string, (toLowerCase key =? "arrowup")%string,
    (toLowerCase key =? "a")%string, (toLowerCase key =? "arrowleft")%string,
    (toLowerCase key =? "s")%string, (toLowerCase key =? "arrowdown")%string,
    (toLowerCase key =? "d")%string, (toLowerCase key =? "arrowright")%string;
    destruct i as [[kw ka ks kd] idx g]; reflexivity.
Qed.

(** * Further properties of the code *)

(** ** Key events *)

Lemma setKey_twice (p q : bool) (key : string) (k : Keys.t) :
  setKey p key (setKey q key k) = setKey p key k.
Proof.
  unfold setKey.
  destruct (toLowerCase key =? "w")%string, (toLowerCase key =? "arrowup")%string,
    (toLowerCase key =? "a")%string, (toLowerCase key =? "arrowleft")%string,
    (toLowerCase key =? "s")%string, (toLowerCase key =? "arrowdown")%string,
    (toLowerCase key =? "d")%string, (toLowerCase key =? "arrowright")%string;
    destruct k; reflexivity.
Qed.

(** X1: of two events of one key the later decides: a key-up after a
    key-down (and a key-down after a key-up) leaves the state that the
    later event alone gives, and a repeated event changes nothing more. *)
Theorem key_events_last_wins (key : string) (i : Input) :
  handleKeyUp key (handleKeyDown key i) = handleKeyUp key i /\
  handleKeyDown key (handleKeyUp key i) = handleKeyDown key i /\
  handleKeyDown key (handleKeyDown key i) = handleKeyDown key i /\
  handleKeyUp key (handleKeyUp key i) = handleKeyUp key i.
Proof.
  unfold handleKeyDown, handleKeyUp; cbn [keys gamepadIndex gamepadState].
  rewrite !setKey_twice; repeat split; reflexivity.
Qed.

Lemma step_keys_other (wd : World) (e : Event) :
  isKeyEvent e = false -> keys (input (step wd e)) = keys (input wd).
Proof.
  destruct e; cbn; try discriminate; intros _.
  - unfold handleGamepadConnected; destruct (gamepadIndex (input wd)); reflexivity.
  - unfold handleGamepadDisconnected; destruct (gamepadIndex (input wd)) as [active|];
      [destruct (index gamepad =? active)%nat|]; reflexivity.
  - unfold updateGamepadInput; destruct (gamepadIndex (input wd)) as [active|];
      [|reflexivity].
    destruct (nth_error gamepads active) as [[gp|]|]; reflexivity.
Qed.

Lemma step_keys_key (wd wd' : World) (e : Event) :
  isKeyEvent e = true ->
  keys (input wd) = keys (input wd') ->
  keys (input (step wd e)) = keys (input (step wd' e)).
Proof.
  destruct e; cbn; try discriminate; intros _ H; rewrite H; reflexivity.
Qed.

Lemma run_keys (es : list Event) (wd wd' : World) :
  keys (input wd) = keys (input wd') ->
  keys (input (run wd es)) = keys (input (run wd' (filter isKeyEvent es))).
Proof.
  unfold run; revert wd wd'; induction es as [|e es IH]; intros wd wd' H;
    [exact H|].
  cbn [fold_left filter]; destruct (isKeyEvent e) eqn:He.
  - cbn [fold_left]; apply IH, step_keys_key; assumption.
  - apply IH; rewrite step_keys_other by exact He; exact H.
Qed.

(** X2: the four key flags after any run of events are those that the key
    events of the run give by themselves: gamepad events and frames never
    change a flag. *)
Theorem keys_follow_key_events_only (es : list Event) (wd : World) :
  keys (input (run wd es)) = keys (input (run wd (filter isKeyEvent es))).
Proof. apply run_keys; reflexivity. Qed.

(** ** Gamepad connection *)

Lemma step_index_key_or_connected (wd : World) (e : Event) (active : nat) :
  isKeyOrConnected e = true ->
  gamepadIndex (input wd) = Some active ->
  gamepadIndex (input (step wd e)) = Some active.
Proof.
  destruct e; cbn; try discriminate; intros _ H; try exact H.
  unfold handleGamepadConnected; rewrite H; exact H.
Qed.

(** X3: the first gamepad that connects is the active one, and stays it
    through every further connection (and key event). *)
Theorem first_gamepad_wins (gp : Gamepad) (es : list Event) (wd : World) :
  gamepadIndex (input wd) = None ->
  forallb isKeyOrConnected es = true ->
  gamepadIndex (input (run (step wd (GamepadConnected gp)) es)) = Some (index gp).
Proof.
  intros Hnone Hes.
  assert (Hfirst : gamepadIndex (input (step wd (GamepadConnected gp))) = Some (index gp)).
  { cbn; unfold handleGamepadConnected; rewrite Hnone; reflexivity. }
  revert Hfirst; generalize (step wd (GamepadConnected gp)); clear Hnone.
  unfold run; induction es as [|e es IH]; intros u Hu; [exact Hu|].
  cbn [forallb] in Hes; apply andb_prop in Hes as [He Hes].
  cbn [fold_left]; apply IH; [exact Hes|].
  apply step_index_key_or_connected; assumption.
Qed.

(** A second gamepad, of index 3, connects after the first, of index 0. *)
Lemma first_gamepad_wins_second_pad :
  gamepadIndex
    (input (run (step initialWorld (GamepadConnected (pad [0; 0; 0; 0])))
                [GamepadConnected (mkGamepad 3 [1; 1] 4); KeyDown "w"]))
  = Some 0%nat.
Proof.
  apply (first_gamepad_wins (pad [0; 0; 0; 0])
           [GamepadConnected (mkGamepad 3 [1; 1] 4); KeyDown "w"] initialWorld);
    reflexivity.
Defined.

(** The active gamepad of index 0 disconnects; a frame that still lists a
    pushed stick and a key press follow. *)
Lemma disconnect_event_keyboard_only_run :
  let wd := run initialWorld
                [GamepadConnected (pad [0; -1; 0; 0]);
                 Frame 0 [Some (pad [0; -1; 0; 0])];
                 GamepadDisconnected (pad [0; -1; 0; 0]);
                 Frame 1 [Some (pad [0; -1; 0; 0])];
                 KeyDown "a"] in
  gamepadIndex (input wd) = None /\
  axes (gamepadState (input wd)) = [0; 0; 0; 0] /\
  determineInput (input wd) = keyboardInput (keys (input wd)).
Proof.
  apply (disconnect_event_keyboard_only
           (run initialWorld
                [GamepadConnected (pad [0; -1; 0; 0]);
                 Frame 0 [Some (pad [0; -1; 0; 0])]])
           (pad [0; -1; 0; 0])
           [Frame 1 [Some (pad [0; -1; 0; 0])]; KeyDown "a"]);
    reflexivity.
Defined.

(** ** Polling *)

Lemma snapAxis_snapped (value : R) : snapped (snapAxis value).
Proof.
  unfold snapped, snapAxis; destruct (Rlt_dec (Rabs value) deadZone);
    [left; reflexivity | right; lra].
Qed.

Lemma snapAxis_idempotent (value : R) : snapAxis (snapAxis value) = snapAxis value.
Proof.
  assert (H0 : snapAxis 0 = 0)
    by (unfold snapAxis; destruct (Rlt_dec (Rabs 0) deadZone); reflexivity).
  assert (Hcases : snapAxis value = 0 \/
                   (snapAxis value = value /\ ~ Rabs value < deadZone)).
  { unfold snapAxis; destruct (Rlt_dec (Rabs value) deadZone);
      [left; reflexivity | right; split; [reflexivity | assumption]]. }
  destruct Hcases as [Hz|[Hv Hge]].
  - rewrite Hz; exact H0.
  - rewrite Hv; exact Hv.
Qed.

Lemma readAxes_twice (gpAxes tracked : list R) :
  readAxes gpAxes (readAxes gpAxes tracked) = readAxes gpAxes tracked.
Proof.
  revert tracked; induction gpAxes as [|v gpAxes IH]; intros [|t tracked];
    cbn; try reflexivity.
  now rewrite IH.
Qed.

Lemma readAxes_snapped (gpAxes tracked : list R) :
  Forall snapped tracked -> Forall snapped (readAxes gpAxes tracked).
Proof.
  revert tracked; induction gpAxes as [|v gpAxes IH]; intros [|t tracked] H;
    cbn; try exact H.
  inversion H; subst; constructor; [apply snapAxis_snapped | apply IH; assumption].
Qed.

(** X4: polling twice with the same readings of the browser is polling
    once: the second poll finds nothing to change, whether the gamepad is
    listed or lost. *)
Theorem polling_idempotent (gamepads : list (option Gamepad)) (i : Input) :
  updateGamepadInput gamepads (updateGamepadInput gamepads i) =
    updateGamepadInput gamepads i.
Proof.
  destruct (gamepadIndex i) as [active|] eqn:Hact.
  - destruct (nth_error gamepads active) as [[gp|]|] eqn:Hgp.
    + assert (E : updateGamepadInput gamepads i =
                  mkInput (keys i) (Some active)
                    (mkGamepadState (readAxes (gp_axes gp) (axes (gamepadState i)))
                                    (buttons (gamepadState i))))
        by (unfold updateGamepadInput; rewrite Hact, Hgp; reflexivity).
      rewrite E; unfold updateGamepadInput;
        cbn [gamepadIndex gamepadState keys axes buttons].
      rewrite Hgp, readAxes_twice; reflexivity.
    + assert (E : updateGamepadInput gamepads i = mkInput (keys i) None (gamepadState i))
        by (unfold updateGamepadInput; rewrite Hact, Hgp; reflexivity).
      rewrite E; reflexivity.
    + assert (E : updateGamepadInput gamepads i = mkInput (keys i) None (gamepadState i))
        by (unfold updateGamepadInput; rewrite Hact, Hgp; reflexivity).
      rewrite E; reflexivity.
  - assert (E : updateGamepadInput gamepads i = i)
      by (unfold updateGamepadInput; rewrite Hact; reflexivity).
    rewrite !E; reflexivity.
Qed.

Lemma step_axes_snapped (wd : World) (e : Event) :
  Forall snapped (axes (gamepadState (input wd))) ->
  Forall snapped (axes (gamepadState (input (step wd e)))).
Proof.
  assert (Hneutral : Forall snapped [0; 0; 0; 0])
    by (repeat constructor; left; reflexivity).
  intros H; destruct e; cbn; try exact H.
  - unfold handleGamepadConnected; destruct (gamepadIndex (input wd)); exact H.
  - unfold handleGamepadDisconnected; destruct (gamepadIndex (input wd)) as [active|];
      [destruct (index gamepad =? active)%nat|]; try exact H; exact Hneutral.
  - unfold updateGamepadInput; destruct (gamepadIndex (input wd)) as [active|];
      [|exact H].
    destruct (nth_error gamepads active) as [[gp|]|]; cbn; try exact H.
    apply readAxes_snapped; exact H.
Qed.

(** X5: at every moment of every run from the start there are exactly
    four tracked axes, so that axes 0 and 1 always hold a number. *)
Theorem tracked_axes_always_four (es : list Event) :
  let g := gamepadState (input (run initialWorld es)) in
  length (axes g) = 4%nat /\
  (exists gpTurn, axis g 0 = Some gpTurn) /\
  (exists axisY, axis g 1 = Some axisY).
Proof.
  intros g.
  assert (Hlen : length (axes g) = 4%nat)
    by (apply tracked_axes_length; reflexivity).
  split; [exact Hlen|].
  unfold axis; destruct (axes g) as [|v0 [|v1 rest]]; cbn in Hlen; try lia.
  split; eexists; reflexivity.
Qed.

(** X6: at every moment of every run from the start each tracked axis is
    0 or of magnitude at least the dead zone: no value strictly inside the
    dead zone is ever stored. *)
Theorem tracked_axes_never_inside_dead_zone (es : list Event) :
  Forall (fun value => value = 0 \/ Rabs value >= 0.15)
         (axes (gamepadState (input (run initialWorld es)))).
Proof.
  change (Forall snapped (axes (gamepadState (input (run initialWorld es))))).
  assert (Hall : forall wd, Forall snapped (axes (gamepadState (input wd))) ->
                            Forall snapped (axes (gamepadState (input (run wd es))))).
  { unfold run; induction es as [|e es IH]; intros wd H; [exact H|].
    cbn [fold_left]; apply IH, step_axes_snapped, H. }
  apply Hall; cbn; repeat constructor; left; reflexivity.
Qed.

(** X7: a poll of the active gamepad overwrites only the axes that the
    gamepad reports: a tracked axis beyond the reported ones keeps its last
    value, and a reported axis beyond the four tracked ones is dropped. *)
Theorem unreported_axes_keep_value (gamepads : list (option Gamepad)) (i : Input)
        (active : nat) (gp : Gamepad) (n : nat) :
  gamepadIndex i = Some active ->
  nth_error gamepads active = Some (Some gp) ->
  let i' := updateGamepadInput gamepads i in
  ((length (gp_axes gp) <= n)%nat -> axis (gamepadState i') n = axis (gamepadState i) n) /\
  ((length (axes (gamepadState i)) <= n)%nat -> axis (gamepadState i') n = None) /\
  length (axes (gamepadState i')) = length (axes (gamepadState i)).
Proof.
  intros Hact Hgp i'; unfold i', updateGamepadInput, axis.
  rewrite Hact, Hgp; cbn [gamepadState axes].
  rewrite readAxes_nth, readAxes_length.
  split; [|split; [|reflexivity]].
  - intros Hshort; apply nth_error_None in Hshort; rewrite Hshort; reflexivity.
  - intros Hshort; apply nth_error_None in Hshort; rewrite Hshort.
    destruct (nth_error (gp_axes gp) n); reflexivity.
Qed.

(** A gamepad that reports one axis only: the forward axis keeps the
    reading [-1] of an earlier poll. *)
Lemma unreported_axes_keep_value_one_axis :
  axis (gamepadState
          (updateGamepadInput [Some (pad [0])]
             (mkInput (Keys.mk false false false false) (Some 0%nat)
                      (mkGamepadState [0; -1; 0; 0] []))))
       1 = Some (-1).
Proof.
  destruct (unreported_axes_keep_value
              [Some (pad [0])]
              (mkInput (Keys.mk false false false false) (Some 0%nat)
                       (mkGamepadState [0; -1; 0; 0] []))
              0%nat (pad [0]) 1%nat eq_refl eq_refl) as [Hkeep _].
  rewrite Hkeep; [reflexivity | cbn; lia].
Defined.

(** ** The inputs of a frame *)

Lemma keyboardInput_bounds (k : Keys.t) :
  -1 <= fst (keyboardInput k) <= 0.6 /\ -1 <= snd (keyboardInput k) <= 1.
Proof. destruct k as [[] [] [] []]; unfold keyboardInput; cbn; lra. Qed.

Lemma axis_in_range (g : GamepadState) (n : nat) (value : R) :
  axesInRange g -> axis g n = Some value -> -1 <= value <= 1.
Proof.
  unfold axesInRange, axis; intros Hall Hn.
  apply nth_error_In in Hn.
  rewrite Forall_forall in Hall; apply Hall, Hn.
Qed.

Lemma determineInput_bounds (i : Input) :
  axesInRange (gamepadState i) ->
  -1 <= fst (determineInput i) <= 0.6 /\ -1 <= snd (determineInput i) <= 1.
Proof.
  intros Hrange; unfold determineInput, gamepadOverride.
  destruct (keyboardInput_bounds (keys i)) as [Hf Ht].
  destruct (keyboardInput (keys i)) as [f t]; cbn [fst snd] in Hf, Ht.
  destruct (axis (gamepadState i) 0) as [gpTurn|] eqn:H0;
    destruct (axis (gamepadState i) 1) as [axisY|] eqn:H1; cbn [fst snd option_map];
    try (pose proof (axis_in_range _ _ _ Hrange H0));
    try (pose proof (axis_in_range _ _ _ Hrange H1));
    repeat match goal with
      | |- context [Rgt_dec ?u ?v] => destruct (Rgt_dec u v)
      end; lra.
Qed.

(** X8: with stick readings in [-1, 1] the forward input of a frame lies
    in [-1, 0.6] and the turn input in [-1, 1], whatever keys are held. *)
Theorem inputs_in_range (i : Input) :
  Forall (fun value => -1 <= value <= 1) (axes (gamepadState i)) ->
  -1 <= fst (determineInput i) <= 0.6 /\ -1 <= snd (determineInput i) <= 1.
Proof. apply determineInput_bounds. Qed.

(** All four keys held and the stick fully forward and fully left. *)
Lemma inputs_in_range_all_keys :
  let i := mkInput (Keys.mk true true true true) (Some 0%nat)
                   (mkGamepadState [-1; -1; 0; 0] []) in
  -1 <= fst (determineInput i) <= 0.6 /\ -1 <= snd (determineInput i) <= 1.
Proof.
  apply (inputs_in_range
           (mkInput (Keys.mk true true true true) (Some 0%nat)
                    (mkGamepadState [-1; -1; 0; 0] []))).
  cbn; repeat constructor; lra.
Defined.

(** X9: whenever the forward axis of the stick overrides the keys, the
    forward input is negative, whichever way the stick is pushed: the stick
    pulled back drives the same way as the stick pushed forward (and as the
    forward key), and never gives the positive input of the back key. *)
Theorem stick_never_reverses (i : Input) (axisY : R) :
  axis (gamepadState i) 1 = Some axisY ->
  Rabs axisY > deadZone ->
  fst (determineInput i) < 0.
Proof.
  intros Hax Habs; unfold determineInput, gamepadOverride.
  destruct (keyboardInput (keys i)) as [f t].
  rewrite Hax; cbn [fst option_map].
  rewrite <- Rabs_Ropp in Habs.
  pose proof deadZone_pos as Hdz.
  destruct (Rgt_dec (Rabs (- axisY)) deadZone); [|contradiction].
  destruct (Rgt_dec (- axisY) 0) as [Hpos|Hneg]; [lra|].
  assert (Hlt : - axisY < 0).
  { destruct (Req_dec_T (- axisY) 0) as [Hz|Hnz]; [|lra].
    rewrite Hz, Rabs_R0 in Habs; lra. }
  lra.
Qed.

(** The stick pulled fully back ([axes[1] = 1]) with no key held, against
    the back key alone. *)
Lemma stick_never_reverses_pulled_back :
  fst (determineInput
         (mkInput (Keys.mk false false false false) (Some 0%nat)
                  (mkGamepadState [0; 1; 0; 0] []))) < 0 /\
  fst (keyboardInput (Keys.mk false false true false)) > 0.
Proof.
  split.
  - apply (stick_never_reverses
             (mkInput (Keys.mk false false false false) (Some 0%nat)
                      (mkGamepadState [0; 1; 0; 0] [])) 1).
    + reflexivity.
    + unfold deadZone; rewrite Rabs_right; lra.
  - unfold keyboardInput; cbn; lra.
Defined.

(** ** Motion of the car *)

Lemma updateCar_position (deltaTime : R) (i : Input) (c : Object3D) :
  fst (determineInput i) = 0 ->
  position (updateCar deltaTime i c) =
    mkVector3 (MathUtils.clamp (x (position c)) (- boundary) boundary)
              0.5
              (MathUtils.clamp (z (position c)) (- boundary) boundary).
Proof.
  intros Hf; unfold updateCar.
  rewrite (surjective_pairing (determineInput i)), applyInput_rotate_translate, Hf.
  rewrite Rmult_0_r, translateZ_0; reflexivity.
Qed.

Lemma inBounds_clamped (c : Object3D) :
  inBounds c ->
  MathUtils.clamp (x (position c)) (- boundary) boundary = x (position c) /\
  MathUtils.clamp (z (position c)) (- boundary) boundary = z (position c).
Proof.
  intros (Hx & Hz & _); split; apply clamp_inside; assumption.
Qed.

(** X12: a car inside the bounds moves only when driven and turns only
    when steered: with forward input 0 it keeps its position, with turn
    input 0 its orientation, with both 0 or in a frame of no duration its
    whole pose. *)
Theorem car_moves_only_when_driven (deltaTime : R) (i : Input) (c : Object3D) :
  inBounds c ->
  (fst (determineInput i) = 0 -> position (updateCar deltaTime i c) = position c) /\
  (snd (determineInput i) = 0 -> quaternion (updateCar deltaTime i c) = quaternion c) /\
  (determineInput i = (0, 0) -> updateCar deltaTime i c = c) /\
  updateCar 0 i c = c.
Proof.
  intros Hin; destruct (inBounds_clamped c Hin) as [Hx Hz].
  destruct Hin as (Hbx & Hbz & Hy).
  split; [|split; [|split]].
  - intros Hf; rewrite (updateCar_position _ _ _ Hf), Hx, Hz, <- Hy.
    destruct (position c); reflexivity.
  - intros Ht; unfold updateCar.
    rewrite (surjective_pairing (determineInput i)), applyInput_rotate_translate, Ht.
    rewrite Rmult_0_r, rotateY_0; reflexivity.
  - intros H0; unfold updateCar; rewrite H0, applyInput_rotate_translate.
    rewrite !Rmult_0_r, rotateY_0, translateZ_0.
    unfold boundaryChecks; rewrite Hx, Hz, <- Hy.
    destruct c as [[px py pz] q sc]; reflexivity.
  - apply updateCar_no_time; assumption.
Qed.

(** The left key held for a second at the start: the car turns on the spot. *)
Lemma car_moves_only_when_driven_left_key :
  position (updateCar 1 (mkInput (Keys.mk false true false false) None
                                 (mkGamepadState [0; 0; 0; 0] []))
                      initialCar)
  = mkVector3 0 0.5 0.
Proof.
  destruct (car_moves_only_when_driven
              1 (mkInput (Keys.mk false true false false) None
                         (mkGamepadState [0; 0; 0; 0] []))
              initialCar) as [Hstay _].
  - unfold inBounds, initialCar; cbn [x y z position]; rewrite boundary_value; lra.
  - apply Hstay.
    rewrite keyboardInput_neutral; unfold keyboardInput; cbn; lra.
Defined.

(** ** The desired camera position *)



(** ** The obstacles and the car *)

Lemma wellPlaced_clear_and_grounded (o : Object3D) :
  wellPlaced o -> ~ overlapsStart o /\ standsOnGround o.
Proof.
  unfold wellPlaced, overlapsStart, standsOnGround, carHalfWidth, carHalfDepth, worldSize.
  intros (Hout & _ & Hx & Hz & sc & Hsc & Hscale & Hy).
  rewrite Hscale; cbn [x y z]; split.
  - intros [H1 H2]; destruct Hout; lra.
  - repeat split; lra.
Qed.

(** X18: with samples in [0, 1) and rejection loops that end,
    [createObstacles(count)] returns, for every count, exactly [count]
    obstacles, and none of them overlaps the footprint of the car at its
    start; each stands on the ground with its whole footprint on the ground
    plane. *)
Theorem obstacles_clear_of_start (random : nat -> R) (count : nat) :
  validRandom random -> loopsEnd random ->
  exists fuel0, forall fuel, (fuel0 <= fuel)%nat ->
    exists obstacles,
      createObstacles random fuel count = Some obstacles /\
      length obstacles = count /\
      Forall (fun o => ~ overlapsStart o /\ standsOnGround o) obstacles.
Proof.
  intros Hvalid Hend.
  destruct (createObstaclesLoop_ends random count Hend 0%nat) as [fuel0 Hfuel].
  exists fuel0; intros fuel Hle.
  destruct (Hfuel fuel Hle []) as [[obstacles calls'] Hrun].
  exists obstacles; unfold createObstacles; rewrite Hrun.
  destruct (createObstaclesLoop_sound random _ _ _ _ _ _ Hvalid Hrun) as [Hlen Hall].
  split; [reflexivity|]. split; [exact Hlen|].
  assert (Hwell : Forall wellPlaced obstacles) by (apply Hall; constructor).
  rewrite Forall_forall in *; intros o Ho.
  apply wellPlaced_clear_and_grounded, Hwell, Ho.
Qed.

(** Seven obstacles from the source of samples that is rejected twice. *)
Lemma obstacles_clear_of_start_seven :
  exists fuel0, forall fuel, (fuel0 <= fuel)%nat ->
    exists obstacles,
      createObstacles twoRejections fuel 7 = Some obstacles /\
      length obstacles = 7%nat /\
      Forall (fun o => ~ overlapsStart o /\ standsOnGround o) obstacles.
Proof.
  apply (obstacles_clear_of_start twoRejections 7).
  - intros n; unfold twoRejections; destruct (n <? 4)%nat; lra.
  - intros calls; exists 2%nat; unfold accepted, twoRejections.
    replace (calls + 2 * 2 <? 4)%nat with false
      by (symmetry; apply Nat.ltb_ge; lia).
    left; unfold MathUtils.randFloatSpread, worldSize.
    rewrite Rabs_right; lra.
Defined.
